(** * html2pdf: the content resolver and the render orchestrator of app.py

    A shallow embedding of [find_html_in_zip], [normalize_paper],
    [render_pdf] and of the "Generate PDF" handler, together with the
    library calls they rely on (codecs, pathlib, zipfile, tempfile, the
    Playwright page API and the Streamlit calls that steer control flow). *)

From Stdlib Require Import NArith.
From Stdlib Require Strings.Byte PrimFloat.
From stdpp Require Import gmap strings list fin_maps.
Import (notations) Stdlib.Strings.Ascii.

Open Scope N_scope.

(** ** Python values *)

(** A Python [str] is a sequence of code points. *)
Abbreviation text := (list N).

(** An ASCII literal as a Python [str]. *)
Fixpoint str (s : string) : text :=
  match s with
  | EmptyString => []
  | String a s' => Ascii.N_of_ascii a :: str s'
  end.

(** Truth value of an [Optional[str]]: [None] and the empty string are
    false. *)
Definition truthy (o : option text) : bool :=
  match o with
  | Some (_ :: _) => true
  | _ => false
  end.

(** [s or None] for a string [s]. *)
Definition or_none (s : text) : option text :=
  match s with
  | [] => None
  | _ => Some s
  end.

(** [str.isspace] on one code point: the ASCII controls 09-0D and 1C-1F,
    the space, and the Unicode white space above them. *)
Definition isspace (c : N) : bool :=
  ((0x09 <=? c) && (c <=? 0x0D)) || ((0x1C <=? c) && (c <=? 0x20))
  || (c =? 0x85) || (c =? 0xA0) || (c =? 0x1680)
  || ((0x2000 <=? c) && (c <=? 0x200A))
  || (c =? 0x2028) || (c =? 0x2029) || (c =? 0x202F) || (c =? 0x205F)
  || (c =? 0x3000).

Fixpoint lstrip (s : text) : text :=
  match s with
  | [] => []
  | c :: s' => if isspace c then lstrip s' else s
  end.

Fixpoint rstrip (s : text) : text :=
  match s with
  | [] => []
  | c :: s' =>
    match rstrip s' with
    | [] => if isspace c then [] else [c]
    | r => c :: r
    end
  end.

(** [str.strip()] without arguments. *)
Definition strip (s : text) : text := rstrip (lstrip s).

(** A string is blank when it consists of white space only. *)
Definition blank (s : text) : bool := forallb isspace s.

(** ** Codecs *)

Module Codec.

(** The [errors] argument of [bytes.decode] and of [Path.read_text]. *)
Inductive error_handler := strict | ignore.

(** [None] stands for a raised [UnicodeDecodeError]. Under [strict] every
    malformed sequence raises; under [ignore] decoding resumes behind the
    offending bytes, [resume] being the decode of what follows them. *)
Definition on_error (errors : error_handler) (resume : option text) : option text :=
  match errors with
  | strict => None
  | ignore => resume
  end.

Definition is_continuation (b : N) : bool := (0x80 <=? b) && (b <? 0xC0).

Definition cp2 (b1 b2 : N) : N :=
  N.lor (N.shiftl (N.land b1 0x1F) 6) (N.land b2 0x3F).

Definition cp3 (b1 b2 b3 : N) : N :=
  N.lor (N.shiftl (N.land b1 0x0F) 12)
        (N.lor (N.shiftl (N.land b2 0x3F) 6) (N.land b3 0x3F)).

Definition cp4 (b1 b2 b3 b4 : N) : N :=
  N.lor (N.shiftl (N.land b1 0x07) 18)
        (N.lor (N.shiftl (N.land b2 0x3F) 12)
               (N.lor (N.shiftl (N.land b3 0x3F) 6) (N.land b4 0x3F))).

(** The second byte of a three-byte form is rejected when it is no
    continuation byte, when it would give an overlong form (lead E0) or a
    surrogate (lead ED). *)
Definition bad_second3 (ch ch2 : N) : bool :=
  negb (is_continuation ch2) || (if ch2 <? 0xA0 then ch =? 0xE0 else ch =? 0xED).

(** Same for a four-byte form: overlong (lead F0) or above U+10FFFF (lead F4). *)
Definition bad_second4 (ch ch2 : N) : bool :=
  negb (is_continuation ch2) || (if ch2 <? 0x90 then ch =? 0xF0 else ch =? 0xF4).

(** The UTF-8 decoder of [bytes.decode("utf-8", errors)], one whole input
    at a time. An invalid start byte is an error of one byte; an invalid
    continuation byte is an error covering the bytes before it (one, two or
    three); an input that stops inside a well-formed prefix is an error
    reaching to the end of the data. *)
Fixpoint utf8_decode (errors : error_handler) (s : list Byte.byte) : option text :=
  match s with
  | [] => Some []
  | c1 :: s1 =>
    let ch := Byte.to_N c1 in
    if ch <? 0x80 then cons ch <$> utf8_decode errors s1
    else if ch <? 0xC2 then on_error errors (utf8_decode errors s1)
    else if ch <? 0xE0 then
      match s1 with
      | [] => on_error errors (Some [])
      | c2 :: s2 =>
        let ch2 := Byte.to_N c2 in
        if is_continuation ch2
        then cons (cp2 ch ch2) <$> utf8_decode errors s2
        else on_error errors (utf8_decode errors s1)
      end
    else if ch <? 0xF0 then
      match s1 with
      | [] => on_error errors (Some [])
      | c2 :: s2 =>
        let ch2 := Byte.to_N c2 in
        if bad_second3 ch ch2 then on_error errors (utf8_decode errors s1)
        else
          match s2 with
          | [] => on_error errors (Some [])
          | c3 :: s3 =>
            let ch3 := Byte.to_N c3 in
            if is_continuation ch3
            then cons (cp3 ch ch2 ch3) <$> utf8_decode errors s3
            else on_error errors (utf8_decode errors s2)
          end
      end
    else if ch <? 0xF5 then
      match s1 with
      | [] => on_error errors (Some [])
      | c2 :: s2 =>
        let ch2 := Byte.to_N c2 in
        if bad_second4 ch ch2 then on_error errors (utf8_decode errors s1)
        else
          match s2 with
          | [] => on_error errors (Some [])
          | c3 :: s3 =>
            let ch3 := Byte.to_N c3 in
            if negb (is_continuation ch3) then on_error errors (utf8_decode errors s2)
            else
              match s3 with
              | [] => on_error errors (Some [])
              | c4 :: s4 =>
                let ch4 := Byte.to_N c4 in
                if is_continuation ch4
                then cons (cp4 ch ch2 ch3 ch4) <$> utf8_decode errors s4
                else on_error errors (utf8_decode errors s3)
              end
          end
      end
    else on_error errors (utf8_decode errors s1)
  end.

(** [bytes.decode("latin-1", errors)]: every byte is a code point, so the
    error handler is never consulted. *)
Definition latin1_decode (errors : error_handler) (s : list Byte.byte) : option text :=
  Some (Byte.to_N <$> s).

(** Text-mode reading with [newline=None]: "\r\n" and a lone "\r" both
    arrive as "\n". *)
Fixpoint universal_newlines (t : text) : text :=
  match t with
  | [] => []
  | c :: t' =>
    if c =? 13 then
      match t' with
      | c' :: t'' => if c' =? 10 then 10 :: universal_newlines t''
                     else 10 :: universal_newlines t'
      | [] => [10]
      end
    else c :: universal_newlines t'
  end.

End Codec.

(** ** The world the handler runs in *)

(** A path is the list of its components below the root directory. *)
Abbreviation path := (list string).

Abbreviation bytes := (list Byte.byte).

(** What a path names on durable storage. *)
Inductive node :=
| File (data : bytes)
| Dir.

(** The exceptions that steer control flow. [StopException] is what
    [st.stop()] raises; it derives from [BaseException] only, all the
    others derive from [Exception]. *)
Inductive exn :=
| UnicodeDecodeError
| OSError (p : path)
| BadZipFile
| PWTimeoutError (msg : text)
| PWError (msg : text)
| StopException.

Definition is_Exception (e : exn) : bool :=
  match e with
  | StopException => false
  | _ => true
  end.

Definition is_PWTimeoutError (e : exn) : bool :=
  match e with
  | PWTimeoutError _ => true
  | _ => false
  end.

(** Values stored in the keyword dictionary handed to [page.pdf]. *)
Inductive pyval :=
| PBool (b : bool)
| PFloat (f : PrimFloat.float)
| PStr (s : text)
| PDict (d : gmap string text).

(** Calls into Playwright, as the browser sees them. *)
Inductive call :=
| sync_playwright_enter
| chromium_launch
| browser_new_context (java_script_enabled : bool)
| context_new_page
| page_set_content (html : text) (wait_until : string) (timeout : Z)
| page_add_style_tag (content : string)
| page_pdf (pdf_args : gmap string pyval)
| page_close
| context_close
| browser_close
| sync_playwright_exit.

(** A fault of the rendering engine; both kinds derive from [Exception]. *)
Inductive pw_fault :=
| Timeout (msg : text)
| Failure (msg : text).

Definition exn_of_fault (f : pw_fault) : exn :=
  match f with
  | Timeout msg => PWTimeoutError msg
  | Failure msg => PWError msg
  end.

(** How the browser answers: which calls fail, and the document it prints. *)
Record engine := {
  fault : call -> option pw_fault;
  printed : gmap string pyval -> bytes
}.

(** What the handler shows to the user. *)
Inductive ui_event :=
| st_error (msg : string)
| st_exception (e : exn)
| st_success
| st_info
| st_html_preview (html : text)
| st_pdf_preview (pdf : bytes)
| st_download_button (file_name : string) (data : bytes).

(** Why the writing of a file's data fails (no space left, an I/O error):
    [open] raises and the file is left as it was, or [write] raises with
    only the first bytes in the file. *)
Inductive write_fault :=
| open_fails
| write_fails (written : nat).

Record world := {
  disk : gmap path node;      (* durable storage *)
  tmp_names : list string;    (* the random names tempfile will draw *)
  storage_fault : path -> bytes -> option write_fault;
                              (* which writes of data to a path fail *)
  chromium : engine;
  calls : list call;          (* Playwright calls so far, oldest first *)
  ui : list ui_event;         (* output so far, oldest first *)
  cleanup_paths : list path   (* the handler's list of files to remove *)
}.

Definition set_disk (d : gmap path node) (w : world) : world :=
  {| disk := d; tmp_names := tmp_names w;
     storage_fault := storage_fault w; chromium := chromium w;
     calls := calls w; ui := ui w; cleanup_paths := cleanup_paths w |}.

Definition set_tmp_names (l : list string) (w : world) : world :=
  {| disk := disk w; tmp_names := l;
     storage_fault := storage_fault w; chromium := chromium w;
     calls := calls w; ui := ui w; cleanup_paths := cleanup_paths w |}.

Definition log_call (c : call) (w : world) : world :=
  {| disk := disk w; tmp_names := tmp_names w;
     storage_fault := storage_fault w; chromium := chromium w;
     calls := calls w ++ [c]; ui := ui w;
     cleanup_paths := cleanup_paths w |}.

Definition log_ui (e : ui_event) (w : world) : world :=
  {| disk := disk w; tmp_names := tmp_names w;
     storage_fault := storage_fault w; chromium := chromium w;
     calls := calls w; ui := ui w ++ [e];
     cleanup_paths := cleanup_paths w |}.

Definition set_cleanup_paths (l : list path) (w : world) : world :=
  {| disk := disk w; tmp_names := tmp_names w;
     storage_fault := storage_fault w; chromium := chromium w;
     calls := calls w; ui := ui w; cleanup_paths := l |}.

(** ** Statements that may raise: a state and exception monad *)

Inductive result (A : Type) :=
| Ok (a : A)
| Raise (e : exn).
Arguments Ok {A} a.
Arguments Raise {A} e.

Definition M (A : Type) : Type := world -> result A * world.

#[global] Instance M_ret : MRet M := fun A a w => (Ok a, w).

#[global] Instance M_bind : MBind M := fun A B k m w =>
  match m w with
  | (Ok a, w') => k a w'
  | (Raise e, w') => (Raise e, w')
  end.

Definition raise {A} (e : exn) : M A := fun w => (Raise e, w).

Definition gets {A} (f : world -> A) : M A := fun w => (Ok (f w), w).

Definition modify (f : world -> world) : M unit := fun w => (Ok tt, f w).

(** [try: body except ...: handler]; [handler e] is [None] when no
    [except] clause matches [e]. *)
Definition try_except {A} (body : M A) (handler : exn -> option (M A)) : M A :=
  fun w =>
    match body w with
    | (Ok a, w') => (Ok a, w')
    | (Raise e, w') =>
      match handler e with
      | Some h => h w'
      | None => (Raise e, w')
      end
    end.

(** [try: body finally: cleanup]. The outcome of [body] stands unless
    [cleanup] itself raises. *)
Definition try_finally {A} (body : M A) (cleanup : M unit) : M A :=
  fun w =>
    match body w with
    | (r, w') =>
      match cleanup w' with
      | (Ok _, w'') => (r, w'')
      | (Raise e, w'') => (Raise e, w'')
      end
    end.

(** [for x in l: body x]. *)
Fixpoint for_each {A} (l : list A) (body : A -> M unit) : M unit :=
  match l with
  | [] => mret tt
  | x :: l' => body x ;; for_each l' body
  end.

(** [except Exception: pass] around [body]. *)
Definition suppress (body : M unit) : M unit :=
  try_except body (fun e => if is_Exception e then Some (mret tt) else None).

(** ** Playwright *)

(** One call into Playwright: the browser sees it, then it returns or
    raises as the engine decides. *)
Definition invoke (c : call) : M unit := fun w =>
  match fault (chromium w) c with
  | Some f => (Raise (exn_of_fault f), log_call c w)
  | None => (Ok tt, log_call c w)
  end.

(** [page.pdf] applied to the keyword dictionary. *)
Definition page_pdf_bytes (pdf_args : gmap string pyval) : M bytes :=
  invoke (page_pdf pdf_args) ;; gets (fun w => printed (chromium w) pdf_args).

(** [with sync_playwright() as playwright: body]. *)
Definition with_sync_playwright {A} (body : M A) : M A :=
  invoke sync_playwright_enter ;; try_finally body (invoke sync_playwright_exit).

(** ** normalize_paper *)

Definition normalize_paper (paper_choice : text) (custom_w custom_h : option text)
  : option text * option text * option text :=
  if decide (paper_choice = str "Custom") then
    let width := or_none (strip (default [] custom_w)) in
    let height := or_none (strip (default [] custom_h)) in
    (None, width, height)
  else (Some paper_choice, None, None).

(** ** render_pdf *)

(** The style rule injected after loading (white space aside). *)
Definition page_margin_css : string :=
  "@page { margin-top: 0 !important; margin-right: 0 !important; margin-bottom: 0 !important; margin-left: 0 !important; padding: 0 !important; }".

(** [if v: args[key] = v]. *)
Definition set_if (key : string) (v : option text) (args : gmap string pyval)
  : gmap string pyval :=
  match v with
  | Some (c :: s) => <[key := PStr (c :: s)]> args
  | _ => args
  end.

(** The local [pdf_args] of [render_pdf], as it stands when [page.pdf] is
    called. *)
Definition pdf_args (format_name width height : option text)
    (margins : gmap string text) (landscape print_background : bool)
    (scale : PrimFloat.float) (header_template footer_template : option text)
    (prefer_css_page_size : bool) : gmap string pyval :=
  let args : gmap string pyval :=
    <["prefer_css_page_size" := PBool prefer_css_page_size]>
    (<["display_header_footer" := PBool (truthy header_template || truthy footer_template)]>
    (<["margin" := PDict margins]>
    (<["scale" := PFloat scale]>
    (<["landscape" := PBool landscape]>
    (<["print_background" := PBool print_background]> ∅))))) in
  let args := set_if "header_template" header_template args in
  let args := set_if "footer_template" footer_template args in
  if truthy format_name then set_if "format" format_name args
  else
    let args := set_if "width" width args in
    set_if "height" height args.

Definition render_pdf (html : text) (base_url : option text)
    (format_name width height : option text) (margins : gmap string text)
    (landscape print_background : bool) (scale : PrimFloat.float)
    (header_template footer_template : option text)
    (prefer_css_page_size : bool) (wait_timeout_ms : Z) : M bytes :=
  with_sync_playwright (
    invoke chromium_launch ;;
    invoke (browser_new_context true) ;;
    invoke context_new_page ;;
    try_finally
      (invoke (page_set_content html "networkidle" wait_timeout_ms) ;;
       invoke (page_add_style_tag page_margin_css) ;;
       page_pdf_bytes (pdf_args format_name width height margins landscape
                         print_background scale header_template
                         footer_template prefer_css_page_size))
      (suppress (invoke page_close ;; invoke context_close ;; invoke browser_close))).

(** ** pathlib, os, tempfile *)

Fixpoint ends_with (suffix s : string) : bool :=
  String.eqb s suffix ||
  match s with
  | EmptyString => false
  | String _ s' => ends_with suffix s'
  end.

(** [fnmatch] for the patterns used here: a literal, or a star followed
    by a literal. *)
Definition fnmatch (name pattern : string) : bool :=
  match pattern with
  | String "*"%char literal => ends_with literal name
  | _ => String.eqb name pattern
  end.

(** [p.name] and [p.parent]. *)
Definition name (p : path) : string := default "" (last p).
Definition parent (p : path) : path := removelast p.

Fixpoint split_slash (current s : string) : list string :=
  match s with
  | EmptyString => [String.rev current]
  | String a s' =>
    if Ascii.eqb a "/"%char then String.rev current :: split_slash "" s'
    else split_slash (String a current) s'
  end.

(** [Path(s)] for a relative [s]: empty and "." components vanish. *)
Definition Path (s : string) : path :=
  filter (fun c => c ≠ "" ∧ c ≠ ".") (split_slash "" s).

(** Splits a reversed file name at its last dot into the reversed stem
    and the extension. *)
Fixpoint split_ext (ext reversed : string) : option (string * string) :=
  match reversed with
  | EmptyString => None
  | String a r =>
    if Ascii.eqb a "."%char then Some (r, ext) else split_ext (String a ext) r
  end.

(** [p.suffix]: from the last dot of the name on, unless that dot is the
    first or the last character of the name. *)
Definition suffix (p : path) : string :=
  match split_ext "" (String.rev (name p)) with
  | Some (String _ _, String a ext) => String "."%char (String a ext)
  | _ => ""
  end.

(** [p.stem]: the name without its suffix. *)
Definition stem (p : path) : string :=
  match split_ext "" (String.rev (name p)) with
  | Some (String a r, String _ _) => String.rev (String a r)
  | _ => name p
  end.

Definition lower_ascii (a : Ascii.ascii) : Ascii.ascii :=
  let n := Ascii.N_of_ascii a in
  if (65 <=? n) && (n <=? 90) then Ascii.ascii_of_N (n + 32) else a.

(** [str.lower()] on a file name. *)
Fixpoint lower (s : string) : string :=
  match s with
  | EmptyString => EmptyString
  | String a s' => String (lower_ascii a) (lower s')
  end.

Definition hex_digit (n : N) : N := if n <? 10 then 48 + n else 55 + n.

(** Percent-quoting of one byte of a path component in a URI. *)
Definition quote (c : N) : text :=
  if ((65 <=? c) && (c <=? 90)) || ((97 <=? c) && (c <=? 122))
     || ((48 <=? c) && (c <=? 57))
     || (c =? 95) || (c =? 46) || (c =? 45) || (c =? 126)
  then [c]
  else [37; hex_digit (c / 16); hex_digit (c mod 16)].

(** [p.as_uri()] for an absolute path. *)
Definition as_uri (p : path) : text :=
  str "file://" ++
  match p with
  | [] => [47]
  | _ => mjoin ((fun c => 47 :: mjoin (quote <$> str c)) <$> p)
  end.

Definition stat (p : path) : M (option node) := gets (fun w => disk w !! p).

Definition put (p : path) (n : node) : M unit :=
  modify (fun w => set_disk (<[p := n]> (disk w)) w).

(** [p.exists()]. *)
Definition path_exists (p : path) : M bool :=
  n ← stat p; mret (bool_decide (is_Some n)).

(** [open(p, "wb")] followed by one [write]: it raises on a directory
    and where storage refuses the data, before or after the file is
    truncated. *)
Definition write_bytes (p : path) (data : bytes) : M unit :=
  n ← stat p;
  match n with
  | Some Dir => raise (OSError p)
  | _ =>
    f ← gets (fun w => storage_fault w p data);
    match f with
    | None => put p (File data)
    | Some open_fails => raise (OSError p)
    | Some (write_fails written) =>
      put p (File (take written data)) ;; raise (OSError p)
    end
  end.

(** [os.remove(p)]: removes a file, raises on anything else. *)
Definition os_remove (p : path) : M unit :=
  n ← stat p;
  match n with
  | Some (File _) => modify (fun w => set_disk (delete p (disk w)) w)
  | _ => raise (OSError p)
  end.

Definition gettempdir : path := ["tmp"].

(** The first drawn name that is not taken yet, and the names left. *)
Fixpoint fresh_name (d : gmap path node) (prefix suffix : string)
    (names : list string) : option (path * list string) :=
  match names with
  | [] => None
  | n :: names' =>
    let p := gettempdir ++ [prefix +:+ n +:+ suffix] in
    if bool_decide (is_Some (d !! p)) then fresh_name d prefix suffix names'
    else Some (p, names')
  end.

Definition mktemp (kind : node) (prefix suffix : string) : M path := fun w =>
  match fresh_name (disk w) prefix suffix (tmp_names w) with
  | Some (p, rest) => (Ok p, set_disk (<[p := kind]> (disk w)) (set_tmp_names rest w))
  | None => (Raise (OSError gettempdir), w)
  end.

(** [tempfile.mkdtemp(prefix=...)] and [tempfile.mkstemp(prefix=..., suffix=...)[1]]. *)
Definition mkdtemp (prefix : string) : M path := mktemp Dir prefix "".
Definition mkstemp (prefix suffix : string) : M path := mktemp (File []) prefix suffix.

(** ** zipfile and the recursive directory scan *)

(** A member of an archive: the components that remain of its name once
    zipfile has dropped empty, "." and ".." parts, whether it is a
    directory entry, and its uncompressed data. *)
Record zip_member := {
  filename : path;
  is_dir : bool;
  content : bytes
}.

Section Resolver.

(** The reader of the ZIP format: the members of an archive in archive
    order, or [None] for bytes that are no ZIP file. *)
Variable zip_members : bytes -> option (list zip_member).

(** The order in which a recursive scan of a directory meets what lies
    below it; it is the file system's, nothing here fixes it. *)
Variable walk : gmap path node -> path -> list path.

(** [zipfile.ZipFile(zip_path, "r")]. *)
Definition ZipFile (zip_path : path) : M (list zip_member) :=
  n ← stat zip_path;
  match n with
  | Some (File data) =>
    match zip_members data with
    | Some zf => mret zf
    | None => raise BadZipFile
    end
  | _ => raise (OSError zip_path)
  end.

(** [os.makedirs(base / rel)], [base] being a directory already. *)
Fixpoint makedirs (base rel : path) : M unit :=
  match rel with
  | [] => mret tt
  | c :: rel' =>
    n ← stat (base ++ [c]);
    match n with
    | Some Dir => makedirs (base ++ [c]) rel'
    | Some (File _) => raise (OSError (base ++ [c]))
    | None => put (base ++ [c]) Dir ;; makedirs (base ++ [c]) rel'
    end
  end.

(** Extraction of one member below [extract_dir]. *)
Definition extract_member (extract_dir : path) (m : zip_member) : M unit :=
  let targetpath := extract_dir ++ filename m in
  makedirs extract_dir (parent (filename m)) ;;
  if is_dir m then
    n ← stat targetpath;
    match n with
    | Some Dir => mret tt
    | Some (File _) => raise (OSError targetpath)
    | None => put targetpath Dir
    end
  else write_bytes targetpath (content m).

(** [zf.extractall(extract_dir)]. *)
Definition extractall (zf : list zip_member) (extract_dir : path) : M unit :=
  for_each zf (extract_member extract_dir).

(** [list(root.rglob(pattern))]. *)
Definition rglob (root : path) (pattern : string) : M (list path) :=
  gets (fun w => filter (fun p => fnmatch (name p) pattern = true)
                        (walk (disk w) root)).

(** ** find_html_in_zip *)

Definition find_html_in_zip (zip_path : path) : M (option path) :=
  extract_dir ← mkdtemp "html2pdf_zip_";
  zf ← ZipFile zip_path;
  extractall zf extract_dir ;;
  let idx := extract_dir ++ ["index.html"] in
  idx_exists ← path_exists idx;
  if (idx_exists : bool) then mret (Some idx)
  else
    html ← rglob extract_dir "*.html";
    htm ← rglob extract_dir "*.htm";
    let html_files := html ++ htm in
    mret (head html_files).

(** ** The two ways of turning the upload into text *)

(** [bytes.decode(encoding, errors)] for UTF-8. *)
Definition decode_utf8 (errors : Codec.error_handler) (s : bytes) : M text :=
  match Codec.utf8_decode errors s with
  | Some t => mret t
  | None => raise UnicodeDecodeError
  end.

Definition decode_latin1 (errors : Codec.error_handler) (s : bytes) : M text :=
  match Codec.latin1_decode errors s with
  | Some t => mret t
  | None => raise UnicodeDecodeError
  end.

(** [entry.read_text(encoding="utf-8", errors="ignore")]. *)
Definition read_text (entry : path) : M text :=
  n ← stat entry;
  match n with
  | Some (File data) =>
    t ← decode_utf8 Codec.ignore data; mret (Codec.universal_newlines t)
  | _ => raise (OSError entry)
  end.

(** The single-file branch: strict UTF-8, Latin-1 on [UnicodeDecodeError]. *)
Definition decode_html_bytes (html_bytes : bytes) : M text :=
  try_except (decode_utf8 Codec.strict html_bytes)
    (fun e => match e with
              | UnicodeDecodeError => Some (decode_latin1 Codec.ignore html_bytes)
              | _ => None
              end).

(** ** The "Generate PDF" handler *)

(** [uploaded.name] and what [uploaded.read()] returns. *)
Record uploaded_file := {
  upload_name : string;
  upload_data : bytes
}.

(** The widget values the handler reads. *)
Record form := {
  uploaded : option uploaded_file;
  base_url_manual : text;
  paper_choice : text;
  custom_w : text;
  custom_h : text;
  m_top : text;
  m_right : text;
  m_bottom : text;
  m_left : text;
  landscape : bool;
  print_background : bool;
  prefer_css_page_size : bool;
  scale : PrimFloat.float;
  header_template : text;
  footer_template : text;
  wait_timeout_ms : Z
}.

Definition show (e : ui_event) : M unit := modify (log_ui e).

(** [st.stop()]. *)
Definition st_stop {A} : M A := raise StopException.

Definition no_upload_msg : string := "Please upload an HTML file or a ZIP.".

Definition no_entry_msg : string :=
  "No HTML file found inside the ZIP (looked for index.html or any .html).".

Definition timeout_msg : string :=
  "Timed out while loading content. Increase the timeout or check network/asset paths.".

(** Lines 207 to 218: the ZIP branch, yielding [(html_text, base_url)]. *)
Definition resolve_zip (up : uploaded_file) : M (text * option text) :=
  tmp_zip ← mkstemp "html2pdf_" ".zip";
  write_bytes tmp_zip (upload_data up) ;;
  modify (fun w => set_cleanup_paths (cleanup_paths w ++ [tmp_zip]) w) ;;
  entry ← find_html_in_zip tmp_zip;
  match entry with
  | None => show (st_error no_entry_msg) ;; st_stop
  | Some entry =>
    entry_exists ← path_exists entry;
    if negb entry_exists then show (st_error no_entry_msg) ;; st_stop
    else
      html_text ← read_text entry;
      mret (html_text, Some (as_uri (parent entry)))
  end.

(** Lines 221 to 227: the single-file branch. *)
Definition resolve_single (up : uploaded_file) (f : form) : M (text * option text) :=
  html_text ← decode_html_bytes (upload_data up);
  mret (html_text, or_none (strip (base_url_manual f))).

(** The body of [if generate:]. Reaching [st.stop()] ends the run with
    [StopException]. *)
Definition generate (f : form) : M unit :=
  match uploaded f with
  | None => show (st_error no_upload_msg) ;; st_stop
  | Some up =>
    modify (set_cleanup_paths []) ;;
    try_finally
      (let suffix := lower (suffix (Path (upload_name up))) in
       '(html_text, base_url) ←
         (if decide (suffix = ".zip") then resolve_zip up
          else resolve_single up f);
       let '(format_name, width, height) :=
         normalize_paper (paper_choice f) (Some (custom_w f)) (Some (custom_h f)) in
       let margins : gmap string text :=
         <["left" := m_left f]> (<["bottom" := m_bottom f]>
         (<["right" := m_right f]> (<["top" := m_top f]> ∅))) in
       pdf_bytes ←
         try_except
           (render_pdf html_text base_url format_name width height margins
              (landscape f) (print_background f) (scale f)
              (or_none (strip (header_template f)))
              (or_none (strip (footer_template f)))
              (prefer_css_page_size f) (wait_timeout_ms f))
           (fun e =>
              if is_PWTimeoutError e
              then Some (show (st_error timeout_msg) ;; st_stop)
              else if is_Exception e
              then Some (show (st_exception e) ;; st_stop)
              else None);
       let fname_base :=
         let s := stem (Path (upload_name up)) in
         if decide (s = "") then "export" else s in
       show st_success ;;
       (if decide (suffix = ".zip") then show st_info
        else show (st_html_preview html_text)) ;;
       show (st_pdf_preview pdf_bytes) ;;
       show (st_download_button (fname_base +:+ ".pdf") pdf_bytes))
      (ps ← gets cleanup_paths;
       for_each ps (fun p => suppress (os_remove p)))
  end.

End Resolver.

(** ** Vocabulary of the properties *)

(** [p] lies strictly below [root]. *)
Definition below (root p : path) : Prop := ∃ rel, rel ≠ [] ∧ p = root ++ rel.

Definition belowb (root p : path) : bool :=
  bool_decide (take (length root) p = root) && bool_decide (length root < length p)%nat.

(** The three calls that release what [render_pdf] acquired. *)
Definition is_release (c : call) : bool :=
  match c with
  | page_close | context_close | browser_close => true
  | _ => false
  end.

(** The releases the browser sees when the closing sequence runs against
    engine [e]: it stops behind the first close that fails. *)
Definition release_calls (e : engine) : list call :=
  page_close ::
  match fault e page_close with
  | Some _ => []
  | None =>
    context_close ::
    match fault e context_close with
    | Some _ => []
    | None => [browser_close]
    end
  end.

(** The same engine, except that no close ever fails. *)
Definition with_reliable_cleanup (e : engine) : engine :=
  {| fault := fun c => if is_release c then None else fault e c;
     printed := printed e |}.

Definition set_chromium (e : engine) (w : world) : world :=
  {| disk := disk w; tmp_names := tmp_names w;
     storage_fault := storage_fault w; chromium := e;
     calls := calls w; ui := ui w; cleanup_paths := cleanup_paths w |}.

(** The world after the browser has seen the calls [l] on top of [w]. *)
Definition add_calls (l : list call) (w : world) : world :=
  {| disk := disk w; tmp_names := tmp_names w;
     storage_fault := storage_fault w; chromium := chromium w;
     calls := calls w ++ l; ui := ui w; cleanup_paths := cleanup_paths w |}.

(** What the try block of [render_pdf] comes to against engine [e]: its
    outcome and the calls it makes, up to the first one that fails. *)
Definition try_block (e : engine) (html : text) (wait_timeout_ms : Z)
    (args : gmap string pyval) : result bytes * list call :=
  let load := page_set_content html "networkidle" wait_timeout_ms in
  let style := page_add_style_tag page_margin_css in
  match fault e load with
  | Some f => (Raise (exn_of_fault f), [load])
  | None =>
    match fault e style with
    | Some f => (Raise (exn_of_fault f), [load; style])
    | None =>
      match fault e (page_pdf args) with
      | Some f => (Raise (exn_of_fault f), [load; style; page_pdf args])
      | None => (Ok (printed e args), [load; style; page_pdf args])
      end
    end
  end.

(** An entry of the extracted tree that the fallback search accepts: it
    is there, strictly below the extraction root, and its name ends in
    ".html" or in ".htm". *)
Definition html_like (d : gmap path node) (root p : path) : Prop :=
  is_Some (d !! p) ∧ below root p
  ∧ (ends_with ".html" (name p) = true ∨ ends_with ".htm" (name p) = true).

(** The world once the upload sits in [tmp_zip] and is listed for removal. *)
Definition staged (up : uploaded_file) (tmp_zip : path) (w : world) : world :=
  let w' := set_disk (<[tmp_zip := File (upload_data up)]> (disk w)) w in
  set_cleanup_paths (cleanup_paths w' ++ [tmp_zip]) w'.

(** [w'] holds everything that [w] holds. *)
Definition keeps (w w' : world) : Prop :=
  forall p, is_Some (disk w !! p) -> is_Some (disk w' !! p).

(** Every directory of [w] is still a directory in [w']. *)
Definition keeps_dirs (w w' : world) : Prop :=
  forall p, disk w !! p = Some Dir -> disk w' !! p = Some Dir.

(** A statement that never removes or replaces a directory. *)
Definition dir_stable {A} (m : M A) : Prop :=
  forall w, keeps_dirs w (m w).2.

(** What the fallback search of [find_html_in_zip] returns on storage [d]
    when the scan is [walk]. *)
Definition first_page (walk : gmap path node -> path -> list path)
    (d : gmap path node) (extract_dir : path) : option path :=
  head (filter (fun p => fnmatch (name p) "*.html" = true) (walk d extract_dir)
        ++ filter (fun p => fnmatch (name p) "*.htm" = true) (walk d extract_dir)).

(** A run ended by [st.stop()] right after the given error message. *)
Definition stopped_with {A} (msg : string) (run : result A * world) : Prop :=
  run.1 = Raise StopException ∧ last (ui run.2) = Some (st_error msg).

(** ** Sample inputs *)

(** An engine that never fails and prints a four-byte document. *)
Definition quiet_engine : engine :=
  {| fault := fun _ => None;
     printed := fun _ => [Byte.x25; Byte.x50; Byte.x44; Byte.x46] |}.

(** An engine whose [page.close()] fails. *)
Definition stubborn_page : engine :=
  {| fault := fun c => match c with
                       | page_close => Some (Failure (str "Target closed"))
                       | _ => None
                       end;
     printed := fun _ => [Byte.x25; Byte.x50; Byte.x44; Byte.x46] |}.

Definition sample_world (e : engine) : world :=
  {| disk := {[ ["tmp"] := Dir ]}; tmp_names := ["k3x9"; "p0q1"];
     storage_fault := fun _ _ => None; chromium := e;
     calls := []; ui := []; cleanup_paths := [] |}.

Definition sample_margins : gmap string text :=
  <["left" := str "15mm"]> (<["bottom" := str "15mm"]>
  (<["right" := str "15mm"]> (<["top" := str "15mm"]> ∅))).

(** A scan that meets the entries in the order of the map's own listing. *)
Definition scan (d : gmap path node) (root : path) : list path :=
  filter (fun p => belowb root p = true) (fst <$> map_to_list d).


(** The members of an archive with a page in a subdirectory, a style
    sheet and a root index.html, in that order. *)
Definition site_members : list zip_member :=
  [ {| filename := ["docs"; "about.htm"]; is_dir := false;
       content := [Byte.x3c; Byte.x70; Byte.x3e] |};
    {| filename := ["style.css"]; is_dir := false; content := [] |};
    {| filename := ["index.html"]; is_dir := false;
       content := [Byte.x3c; Byte.x68; Byte.x31; Byte.x3e] |} ].

(** The members of an archive without a root index.html. *)
Definition pages_members : list zip_member :=
  [ {| filename := ["old"; "home.htm"]; is_dir := false;
       content := [Byte.x3c; Byte.x70; Byte.x3e] |};
    {| filename := ["pages"; "intro.html"]; is_dir := false;
       content := [Byte.x3c; Byte.x68; Byte.x31; Byte.x3e] |} ].

(** The members of an archive whose only file lies in a directory named
    docs.html. *)
Definition bundle_members : list zip_member :=
  [ {| filename := ["docs.html"; "readme.txt"]; is_dir := false;
       content := [Byte.x68; Byte.x69] |} ].

(** Readers that find the given members in any bytes. *)
Definition site_zip (data : bytes) : option (list zip_member) := Some site_members.
Definition pages_zip (data : bytes) : option (list zip_member) := Some pages_members.
Definition bundle_zip (data : bytes) : option (list zip_member) := Some bundle_members.

Definition sample_upload : uploaded_file :=
  {| upload_name := "site.zip"; upload_data := [Byte.x50; Byte.x4b] |}.

Definition sample_form (up : uploaded_file) : form :=
  {| uploaded := Some up; base_url_manual := [];
     paper_choice := str "A4"; custom_w := []; custom_h := [];
     m_top := str "15mm"; m_right := str "15mm";
     m_bottom := str "15mm"; m_left := str "15mm";
     landscape := false; print_background := true;
     prefer_css_page_size := true; scale := PrimFloat.one;
     header_template := []; footer_template := [];
     wait_timeout_ms := 30000 |}.

(** The stages of a ZIP conversion started in the sample world. *)
Definition sample_tmp_zip : path := ["tmp"; "html2pdf_k3x9.zip"].
Definition sample_extract_dir : path := ["tmp"; "html2pdf_zip_p0q1"].

Definition uploaded_world : world :=
  (mkstemp "html2pdf_" ".zip" (sample_world quiet_engine)).2.

Definition staged_world : world :=
  staged sample_upload sample_tmp_zip uploaded_world.

Definition tmpdir_world : world := (mkdtemp "html2pdf_zip_" staged_world).2.

Definition extracted_world (zf : list zip_member) : world :=
  (extractall zf sample_extract_dir tmpdir_world).2.

(** ** Frames: what a statement leaves alone *)

(** Every run of [m] relates the world before to the world after by [R]. *)
Definition preserves (R : world -> world -> Prop) {A} (m : M A) : Prop :=
  forall w, R w (m w).2.

(** Every exception [m] can raise satisfies [P]. *)
Definition raises_only (P : exn -> Prop) {A} (m : M A) : Prop :=
  forall w e w', m w = (Raise e, w') -> P e.

(** Nothing changed but the browser's log, which grew. *)
Definition only_calls (w w' : world) : Prop := exists l, w' = add_calls l w.

(** Nothing changed but storage and the supply of temporary names. *)
Definition only_storage (w w' : world) : Prop :=
  chromium w' = chromium w ∧ calls w' = calls w ∧ ui w' = ui w
  ∧ cleanup_paths w' = cleanup_paths w.

(** The cleanup list is the same and a file at [p] is still there with
    its data. *)
Definition keeps_file (p : path) (w w' : world) : Prop :=
  cleanup_paths w' = cleanup_paths w
  ∧ forall data, disk w !! p = Some (File data) -> disk w' !! p = Some (File data).

(** [e] is a fault of the rendering engine. *)
Definition is_fault (e : exn) : Prop := exists f, e = exn_of_fault f.

(** A dimension as [normalize_paper] hands it on: absent, or a string
    that is not empty and neither starts nor ends with white space. *)
Definition trimmed (o : option text) : Prop :=
  match o with
  | None => True
  | Some s =>
    s ≠ []
    ∧ (forall c, head s = Some c -> isspace c = false)
    ∧ (forall c, last s = Some c -> isspace c = false)
  end.

(** The keywords [render_pdf] may hand to [page.pdf]. *)
Definition pdf_keywords : list string :=
  ["print_background"; "landscape"; "scale"; "margin";
   "display_header_footer"; "prefer_css_page_size"; "header_template";
   "footer_template"; "format"; "width"; "height"].

(** The render the handler asks for, for the given text and base URL:
    [normalize_paper] on the paper widgets, the four margins, the stripped
    templates. *)
Definition handler_render (f : form) (html_text : text) (base_url : option text)
  : M bytes :=
  let '(format_name, width, height) :=
    normalize_paper (paper_choice f) (Some (custom_w f)) (Some (custom_h f)) in
  render_pdf html_text base_url format_name width height
    (<["left" := m_left f]> (<["bottom" := m_bottom f]>
     (<["right" := m_right f]> (<["top" := m_top f]> ∅))))
    (landscape f) (print_background f) (scale f)
    (or_none (strip (header_template f)))
    (or_none (strip (footer_template f)))
    (prefer_css_page_size f) (wait_timeout_ms f).

(** What is left in a file whose writing failed: what it held before
    when [open] failed, the bytes that got through when [write] failed. *)
Definition left_by (fl : write_fault) (before data : bytes) : bytes :=
  match fl with
  | open_fails => before
  | write_fails written => take written data
  end.

(** The file name offered for download. *)
Definition download_name (up : uploaded_file) : string :=
  (if decide (stem (Path (upload_name up)) = "") then "export"
   else stem (Path (upload_name up))) +:+ ".pdf".

(** The world after the given outputs were shown, oldest first. *)
Definition shown (l : list ui_event) (w : world) : world :=
  foldl (fun w e => log_ui e w) w l.

(** ** playwright-install.py *)

Module PlaywrightInstall.

(** What can go wrong: the import of the playwright package, and the
    install command ([check=True] turns a non-zero exit status into
    [CalledProcessError]; a missing executable is [FileNotFoundError]). *)
Inductive error :=
| ImportError
| CalledProcessError (returncode : Z)
| FileNotFoundError.

(** [ImportError], [CalledProcessError] and [FileNotFoundError] all
    derive from [Exception]. *)
Definition is_Exception (e : error) : bool := true.

(** The machine the script runs on. *)
Record host := {
  playwright_importable : bool;
  run : list string -> option error   (* [subprocess.run(cmd, check=True)] *)
}.

(** What the script did: the commands it ran, the lines it printed. *)
Record trace := {
  commands : list (list string);
  stdout : list (string * error)
}.

Definition install_command : list string := ["playwright"; "install"; "chromium"].

(** The script: the outcome ([None] for a normal end, [Some e] for an
    uncaught [e]) and what it did. The import stands outside the [try]. *)
Definition main (h : host) : option error * trace :=
  if playwright_importable h then
    match run h install_command with
    | None => (None, {| commands := [install_command]; stdout := [] |})
    | Some e =>
      if is_Exception e
      then (None, {| commands := [install_command];
                     stdout := [("Error installing Playwright Chromium:", e)] |})
      else (Some e, {| commands := [install_command]; stdout := [] |})
    end
  else (Some ImportError, {| commands := []; stdout := [] |}).

End PlaywrightInstall.

(** ** More sample inputs *)

(** An engine whose content load times out. *)
Definition slow_engine : engine :=
  {| fault := fun c => match c with
                       | page_set_content _ _ _ =>
                         Some (Timeout (str "Timeout 30000ms exceeded."))
                       | _ => None
                       end;
     printed := fun _ => [Byte.x25; Byte.x50; Byte.x44; Byte.x46] |}.

(** An engine that cannot open a browser context. *)
Definition no_context_engine : engine :=
  {| fault := fun c => match c with
                       | browser_new_context _ => Some (Failure (str "Browser closed"))
                       | _ => None
                       end;
     printed := fun _ => [Byte.x25; Byte.x50; Byte.x44; Byte.x46] |}.

(** A reader that finds no archive in any bytes. *)
Definition garbage_zip (data : bytes) : option (list zip_member) := None.

(** The members of an archive whose root index.html is a directory. *)
Definition dir_index_members : list zip_member :=
  [ {| filename := ["index.html"]; is_dir := true; content := [] |} ].

Definition dir_index_zip (data : bytes) : option (list zip_member) :=
  Some dir_index_members.

(** The members of an archive without any page. *)
Definition assets_members : list zip_member :=
  [ {| filename := ["style.css"]; is_dir := false; content := [] |} ].

Definition assets_zip (data : bytes) : option (list zip_member) :=
  Some assets_members.

(** A single page in Latin-1. *)
Definition page_upload : uploaded_file :=
  {| upload_name := "page.html";
     upload_data := [Byte.x3c; Byte.x70; Byte.x3e; Byte.xe9] |}.

(** The sample world once the handler has emptied its cleanup list. *)
Definition started_world (e : engine) : world :=
  set_cleanup_paths [] (sample_world e).

(** The stages of a ZIP conversion run by the handler in the sample world. *)
Definition started_uploaded_world : world :=
  (mkstemp "html2pdf_" ".zip" (started_world quiet_engine)).2.

Definition started_tmpdir_world : world :=
  (mkdtemp "html2pdf_zip_"
     (staged sample_upload sample_tmp_zip started_uploaded_world)).2.

Definition started_extracted_world (zf : list zip_member) : world :=
  (extractall zf sample_extract_dir started_tmpdir_world).2.

(** The sample world on a storage that takes no more data: every write
    fails before its first byte. *)
Definition full_storage_world : world :=
  {| disk := {[ ["tmp"] := Dir ]}; tmp_names := ["k3x9"; "p0q1"];
     storage_fault := fun _ _ => Some (write_fails 0);
     chromium := quiet_engine; calls := []; ui := []; cleanup_paths := [] |}.

(** A machine where the install command exits with status 1. *)
Definition failing_host : PlaywrightInstall.host :=
  {| PlaywrightInstall.playwright_importable := true;
     PlaywrightInstall.run := fun _ => Some (PlaywrightInstall.CalledProcessError 1) |}.

(** * Properties *)

(** ** The model on small inputs *)

Example utf8_two_three_four_bytes :
  Codec.utf8_decode Codec.strict
    [Byte.xc3; Byte.xa9; Byte.xe2; Byte.x82; Byte.xac;
     Byte.xf0; Byte.x9f; Byte.x98; Byte.x80]
  = Some [0xE9; 0x20AC; 0x1F600].
Proof. reflexivity. Qed.

Example utf8_strict_rejects_latin1 :
  Codec.utf8_decode Codec.strict [Byte.x63; Byte.x61; Byte.x66; Byte.xe9] = None.
Proof. reflexivity. Qed.

Example utf8_ignore_drops_bad_bytes :
  Codec.utf8_decode Codec.ignore
    [Byte.xe2; Byte.x82; Byte.x41; Byte.xed; Byte.xa0; Byte.x80; Byte.x42; Byte.xc2]
  = Some [65; 66].
Proof. reflexivity. Qed.

Example strip_trims_both_ends : strip (str "  210 mm	 ") = str "210 mm".
Proof. reflexivity. Qed.

Example suffix_of_upload_names :
  lower (suffix (Path "Site.ZIP")) = ".zip"
  ∧ suffix (Path "archive.tar.gz") = ".gz"
  ∧ suffix (Path ".zip") = "" ∧ suffix (Path "notes.") = ""
  ∧ stem (Path "Site.ZIP") = "Site".
Proof. repeat split. Qed.

Example fnmatch_html_patterns :
  fnmatch "a.html" "*.html" = true ∧ fnmatch "a.htm" "*.html" = false
  ∧ fnmatch "a.htm" "*.htm" = true ∧ fnmatch "a.html" "*.htm" = false
  ∧ fnmatch "A.HTML" "*.html" = false.
Proof. repeat split. Qed.

Example as_uri_quotes :
  as_uri ["tmp"; "html2pdf_zip_k3x9"; "my site"]
  = str "file:///tmp/html2pdf_zip_k3x9/my%20site".
Proof. reflexivity. Qed.

Example normalize_paper_custom :
  normalize_paper (str "Custom") (Some (str " 210mm ")) (Some (str "  "))
  = (None, Some (str "210mm"), None).
Proof. reflexivity. Qed.

Example normalize_paper_preset :
  normalize_paper (str "Letter") (Some (str "8.5in")) (Some (str "11in"))
  = (Some (str "Letter"), None, None).
Proof. reflexivity. Qed.

(** ** Decoding *)

Section CodecFacts.
Import Codec.

(** One step of case analysis along the decoder's tests. *)
Ltac decoder_case :=
  match goal with
  | |- context [if ?b then _ else _] => destruct b eqn:?
  | |- context [match ?l with [] => _ | _ :: _ => _ end] => destruct l
  end.



Lemma utf8_decode_ignore_total_len n : forall s,
  (length s <= n)%nat -> is_Some (utf8_decode ignore s).
Proof.
  induction n as [|n IH]; intros s Hlen.
  - destruct s; [by eexists | simpl in Hlen; lia].
  - destruct s as [|c1 s1]; [by eexists|]. simpl in Hlen.
    assert (Hrec : forall s', (length s' <= length s1)%nat ->
              is_Some (utf8_decode ignore s')).
    { intros s' Hs'. apply IH. lia. }
    assert (Hcons : forall s' cp, (length s' <= length s1)%nat ->
              is_Some (cons cp <$> utf8_decode ignore s')).
    { intros s' cp Hs'. apply fmap_is_Some, Hrec, Hs'. }
    cbn [utf8_decode on_error].
    repeat decoder_case; cbn [on_error];
      first [ by eexists | apply Hcons; simpl in *; lia | apply Hrec; simpl in *; lia ].
Qed.

Lemma utf8_decode_ignore_total s : is_Some (utf8_decode ignore s).
Proof. by apply (utf8_decode_ignore_total_len (length s)). Qed.


End CodecFacts.

(** ** Text helpers *)

Lemma rstrip_nil s : rstrip s = [] <-> blank s = true.
Proof.
  induction s as [|c s IH]; [done|]. simpl.
  destruct (rstrip s) as [|r rs] eqn:Hr.
  - destruct (isspace c); simpl; [tauto | split; discriminate].
  - split; [discriminate|]. intros [_ Hs]%andb_prop. by apply IH in Hs.
Qed.

Lemma blank_lstrip s : blank (lstrip s) = blank s.
Proof.
  induction s as [|c s IH]; [done|]. simpl.
  destruct (isspace c) eqn:Hc; [done|]. simpl. by rewrite Hc.
Qed.

Lemma strip_nil s : strip s = [] <-> blank s = true.
Proof. unfold strip. by rewrite rstrip_nil, blank_lstrip. Qed.

Lemma or_none_strip s :
  or_none (strip s) = if blank s then None else Some (strip s).
Proof.
  destruct (blank s) eqn:Hb.
  - apply strip_nil in Hb. by rewrite Hb.
  - destruct (strip s) eqn:Hs; [|done].
    apply strip_nil in Hs. congruence.
Qed.

Lemma truthy_or_none s : truthy (or_none s) = negb (bool_decide (s = [])).
Proof. by destruct s. Qed.

Lemma truthy_or_none_strip s : truthy (or_none (strip s)) = negb (blank s).
Proof.
  rewrite or_none_strip. destruct (blank s) eqn:Hb; [done|].
  destruct (strip s) eqn:Hs; [|done]. apply strip_nil in Hs. congruence.
Qed.

(** ** The dictionary handed to page.pdf *)

Lemma lookup_set_if key v (args : gmap string pyval) k :
  set_if key v args !! k =
  if bool_decide (key = k) && truthy v then PStr <$> v else args !! k.
Proof.
  destruct v as [[|c s]|]; simpl; rewrite ?andb_false_r; try done.
  rewrite andb_true_r. case_bool_decide as Hk.
  - subst. by rewrite lookup_insert_eq.
  - by rewrite lookup_insert_ne.
Qed.

Lemma truthy_fmap v : truthy v = true -> exists c s, v = Some (c :: s).
Proof. destruct v as [[|c s]|]; try done. eauto. Qed.

Section PdfArgs.

Variables (margins : gmap string text) (landscape print_background : bool)
          (scale : PrimFloat.float) (prefer_css_page_size : bool).

(** C5. The display-header-footer flag handed to [page.pdf] is the
    presence of either template: false when both are absent or empty, true
    as soon as one is non-empty; and a template is in the dictionary
    exactly when it is non-empty. At the call site a template is present
    exactly when the text box is not blank. *)
Theorem display_header_footer_is_presence
    (format_name width height header_template footer_template : option text) :
  let args := pdf_args format_name width height margins landscape
                print_background scale header_template footer_template
                prefer_css_page_size in
  args !! "display_header_footer"
    = Some (PBool (truthy header_template || truthy footer_template))
  ∧ args !! "header_template"
    = (if truthy header_template then PStr <$> header_template else None)
  ∧ args !! "footer_template"
    = (if truthy footer_template then PStr <$> footer_template else None)
  ∧ (forall box : text, truthy (or_none (strip box)) = negb (blank box)).
Proof.
  intros args. subst args. unfold pdf_args.
  split_and!; [..| apply truthy_or_none_strip];
    destruct (truthy format_name);
    rewrite !lookup_set_if; simpl;
    destruct (truthy header_template), (truthy footer_template); simpl;
    by simplify_map_eq.
Qed.

Lemma pdf_args_geometry
    (format_name width height header_template footer_template : option text) :
  let args := pdf_args format_name width height margins landscape
                print_background scale header_template footer_template
                prefer_css_page_size in
  args !! "format" = (if truthy format_name then PStr <$> format_name else None)
  ∧ args !! "width"
    = (if truthy format_name then None
       else if truthy width then PStr <$> width else None)
  ∧ args !! "height"
    = (if truthy format_name then None
       else if truthy height then PStr <$> height else None).
Proof.
  intros args. subst args. unfold pdf_args.
  split_and!;
    destruct (truthy format_name) eqn:Hf;
    rewrite !lookup_set_if, ?Hf; simpl;
    destruct (truthy header_template), (truthy footer_template),
             (truthy width), (truthy height); simpl;
    by simplify_map_eq.
Qed.

Lemma dimension_of_box (s : text) :
  (if truthy (or_none (strip s)) then PStr <$> or_none (strip s) else None)
  = (if blank s then None else Some (PStr (strip s))).
Proof.
  rewrite truthy_or_none_strip, or_none_strip. by destruct (blank s).
Qed.

(** C4. The dictionary never holds a page format together with a width
    or a height. With a named preset (any choice other than "Custom" and
    the empty string) it holds the preset and neither width nor height;
    with "Custom" it holds no format, and a width (a height) exactly when
    the corresponding text is not blank, namely the trimmed text. *)
Theorem geometry_is_exclusive
    (paper_choice : text) (custom_w custom_h header_template footer_template : option text) :
  let '(format_name, width, height) :=
    normalize_paper paper_choice custom_w custom_h in
  let args := pdf_args format_name width height margins landscape
                print_background scale header_template footer_template
                prefer_css_page_size in
  let dimension (custom : option text) :=
    if blank (default [] custom) then None
    else Some (PStr (strip (default [] custom))) in
  ¬ (is_Some (args !! "format")
     ∧ (is_Some (args !! "width") ∨ is_Some (args !! "height")))
  ∧ (paper_choice ≠ str "Custom" -> paper_choice ≠ [] ->
     args !! "format" = Some (PStr paper_choice)
     ∧ args !! "width" = None ∧ args !! "height" = None)
  ∧ (paper_choice = str "Custom" ->
     args !! "format" = None
     ∧ args !! "width" = dimension custom_w
     ∧ args !! "height" = dimension custom_h).
Proof.
  unfold normalize_paper.
  destruct (decide (paper_choice = str "Custom")) as [Hc|Hc]; cbv zeta.
  - destruct (pdf_args_geometry None
                (or_none (strip (default [] custom_w)))
                (or_none (strip (default [] custom_h)))
                header_template footer_template) as (-> & -> & ->).
    simpl truthy. cbv iota. rewrite !dimension_of_box.
    split_and!; [by intros [[? ?] _] | done | done].
  - destruct (pdf_args_geometry (Some paper_choice) None None
                header_template footer_template) as (-> & -> & ->).
    destruct (truthy (Some paper_choice)) eqn:Ht.
    + split_and!; [by intros [_ [[? ?]|[? ?]]] | done | done].
    + destruct paper_choice; [|done].
      split_and!; [by intros [[? ?] _] | done | done].
Qed.

End PdfArgs.

Lemma geometry_is_exclusive_witness :
  let args := pdf_args (Some (str "Letter")) None None sample_margins false
                true PrimFloat.one None None true in
  args !! "format" = Some (PStr (str "Letter"))
  ∧ args !! "width" = None ∧ args !! "height" = None.
Proof.
  pose proof (geometry_is_exclusive sample_margins false true PrimFloat.one
                true (str "Letter") (Some (str "8.5in")) (Some (str "11in"))
                None None) as H.
  change (normalize_paper (str "Letter") (Some (str "8.5in")) (Some (str "11in")))
    with (Some (str "Letter"), @None text, @None text) in H.
  cbv beta iota zeta in H. destruct H as (_ & H & _).
  apply H; intros Heq; vm_compute in Heq; discriminate Heq.
Defined.

(** ** render_pdf *)

Lemma render_pdf_base_url_unused html (base_url base_url' : option text)
    format_name width height margins landscape print_background scale
    header_template footer_template prefer_css_page_size wait_timeout_ms
    (w : world) :
  render_pdf html base_url format_name width height margins landscape
    print_background scale header_template footer_template
    prefer_css_page_size wait_timeout_ms w
  = render_pdf html base_url' format_name width height margins landscape
      print_background scale header_template footer_template
      prefer_css_page_size wait_timeout_ms w.
Proof. reflexivity. Qed.

(** C1. A document with a relative image reference is rendered with the
    base URL https://example.com/assets/ and without any: the two runs are
    the same, and among the calls the browser sees the one that loads
    content carries the markup, the wait condition and the timeout, no
    base URL. *)
Theorem render_pdf_drops_base_url :
  let html := str "<img src='logo.png'>" in
  let run base_url :=
    render_pdf html base_url (Some (str "A4")) None None sample_margins
      false true PrimFloat.one None None true 30000
      (sample_world quiet_engine) in
  run (Some (str "https://example.com/assets/")) = run None
  ∧ calls (run (Some (str "https://example.com/assets/"))).2
    = [sync_playwright_enter; chromium_launch; browser_new_context true;
       context_new_page; page_set_content html "networkidle" 30000;
       page_add_style_tag page_margin_css;
       page_pdf (pdf_args (Some (str "A4")) None None sample_margins false
                   true PrimFloat.one None None true);
       page_close; context_close; browser_close; sync_playwright_exit].
Proof.
  intros html run. split.
  - subst run. cbv beta. apply render_pdf_base_url_unused.
  - vm_compute. reflexivity.
Qed.

(** C6, as stated, fails: when [page.close()] raises, the closing sequence
    ends there; neither the context nor the browser is closed. The
    document is returned all the same. *)
Lemma failed_page_close_skips_other_releases :
  let run :=
    render_pdf (str "<p>hello</p>") None (Some (str "A4")) None None
      sample_margins false true PrimFloat.one None None true 30000
      (sample_world stubborn_page) in
  run.1 = Ok [Byte.x25; Byte.x50; Byte.x44; Byte.x46]
  ∧ filter (fun c => is_release c = true) (calls run.2) = [page_close].
Proof. vm_compute. split; reflexivity. Qed.

(** Running statements *)

Lemma log_call_add c w : log_call c w = add_calls [c] w.
Proof. reflexivity. Qed.

Lemma add_calls_add_calls l1 l2 w :
  add_calls l2 (add_calls l1 w) = add_calls (l1 ++ l2) w.
Proof. unfold add_calls. simpl. by rewrite (assoc_L (++)). Qed.

Lemma invoke_ok {A} c (k : M A) w :
  fault (chromium w) c = None -> (invoke c ;; k) w = k (add_calls [c] w).
Proof. intros H. unfold mbind, M_bind, invoke. by rewrite H. Qed.

Lemma invoke_fault {A} c (k : M A) w f :
  fault (chromium w) c = Some f ->
  (invoke c ;; k) w = (Raise (exn_of_fault f), add_calls [c] w).
Proof. intros H. unfold mbind, M_bind, invoke. by rewrite H. Qed.

Lemma invoke_last_ok c w :
  fault (chromium w) c = None -> invoke c w = (Ok tt, add_calls [c] w).
Proof. intros H. unfold invoke. by rewrite H. Qed.

Lemma invoke_last_fault c w f :
  fault (chromium w) c = Some f ->
  invoke c w = (Raise (exn_of_fault f), add_calls [c] w).
Proof. intros H. unfold invoke. by rewrite H. Qed.

Lemma is_Exception_fault f : is_Exception (exn_of_fault f) = true.
Proof. by destruct f. Qed.

(** The closing sequence never raises, and the browser sees the closes
    up to the first one that fails. *)
Lemma closing_sequence_run w :
  suppress (invoke page_close ;; invoke context_close ;; invoke browser_close) w
  = (Ok tt, add_calls (release_calls (chromium w)) w).
Proof.
  unfold suppress, try_except, release_calls.
  destruct (fault (chromium w) page_close) eqn:Hpc.
  { by rewrite (invoke_fault _ _ _ _ Hpc), is_Exception_fault. }
  rewrite (invoke_ok _ _ _ Hpc).
  destruct (fault (chromium w) context_close) eqn:Hcc.
  { rewrite (invoke_fault _ _ (add_calls _ w) _ Hcc), is_Exception_fault.
    by rewrite add_calls_add_calls. }
  rewrite (invoke_ok _ _ (add_calls _ w) Hcc), add_calls_add_calls.
  destruct (fault (chromium w) browser_close) eqn:Hbc.
  - rewrite (invoke_last_fault _ (add_calls _ w) _ Hbc), is_Exception_fault.
    by rewrite add_calls_add_calls.
  - rewrite (invoke_last_ok _ (add_calls _ w) Hbc).
    by rewrite add_calls_add_calls.
Qed.

Lemma try_block_run html wait_timeout_ms args w :
  (invoke (page_set_content html "networkidle" wait_timeout_ms) ;;
   invoke (page_add_style_tag page_margin_css) ;;
   page_pdf_bytes args) w
  = ((try_block (chromium w) html wait_timeout_ms args).1,
     add_calls (try_block (chromium w) html wait_timeout_ms args).2 w).
Proof.
  unfold try_block, page_pdf_bytes.
  destruct (fault (chromium w) (page_set_content _ _ _)) eqn:Hload.
  { by rewrite (invoke_fault _ _ _ _ Hload). }
  rewrite (invoke_ok _ _ _ Hload).
  destruct (fault (chromium w) (page_add_style_tag _)) eqn:Hstyle.
  { rewrite (invoke_fault _ _ (add_calls _ w) _ Hstyle).
    by rewrite add_calls_add_calls. }
  rewrite (invoke_ok _ _ (add_calls _ w) Hstyle), add_calls_add_calls.
  destruct (fault (chromium w) (page_pdf args)) eqn:Hpdf.
  - rewrite (invoke_fault _ _ (add_calls _ w) _ Hpdf).
    by rewrite add_calls_add_calls.
  - rewrite (invoke_ok _ _ (add_calls _ w) Hpdf).
    by rewrite add_calls_add_calls.
Qed.

Lemma try_block_calls_not_release e html wait_timeout_ms args :
  Forall (fun c => is_release c = false)
         (try_block e html wait_timeout_ms args).2.
Proof. unfold try_block. repeat case_match; simpl; repeat constructor. Qed.

Lemma try_block_reliable_cleanup e html wait_timeout_ms args :
  (try_block (with_reliable_cleanup e) html wait_timeout_ms args).1
  = (try_block e html wait_timeout_ms args).1.
Proof. reflexivity. Qed.

Section RenderPdf.

Variables (html : text) (base_url format_name width height : option text)
          (margins : gmap string text) (landscape print_background : bool)
          (scale : PrimFloat.float) (header_template footer_template : option text)
          (prefer_css_page_size : bool) (wait_timeout_ms : Z).

Local Abbreviation render :=
  (render_pdf html base_url format_name width height margins landscape
     print_background scale header_template footer_template
     prefer_css_page_size wait_timeout_ms).

Local Abbreviation args :=
  (pdf_args format_name width height margins landscape print_background scale
     header_template footer_template prefer_css_page_size).

(** The whole run of [render_pdf] once browser, context and page are
    there. *)
Lemma render_pdf_run (w : world) :
  fault (chromium w) sync_playwright_enter = None ->
  fault (chromium w) chromium_launch = None ->
  fault (chromium w) (browser_new_context true) = None ->
  fault (chromium w) context_new_page = None ->
  render w
  = (match fault (chromium w) sync_playwright_exit with
     | Some f => Raise (exn_of_fault f)
     | None => (try_block (chromium w) html wait_timeout_ms args).1
     end,
     add_calls
       ([sync_playwright_enter; chromium_launch; browser_new_context true;
         context_new_page]
        ++ (try_block (chromium w) html wait_timeout_ms args).2
        ++ release_calls (chromium w) ++ [sync_playwright_exit]) w).
Proof.
  intros Henter Hlaunch Hctx Hpage.
  unfold render_pdf, with_sync_playwright.
  rewrite (invoke_ok _ _ _ Henter).
  unfold try_finally at 1.
  rewrite (invoke_ok _ _ (add_calls _ w) Hlaunch), add_calls_add_calls.
  rewrite (invoke_ok _ _ (add_calls _ w) Hctx), add_calls_add_calls.
  rewrite (invoke_ok _ _ (add_calls _ w) Hpage), add_calls_add_calls.
  unfold try_finally.
  rewrite try_block_run, closing_sequence_run, !add_calls_add_calls.
  cbn [chromium add_calls].
  destruct (fault (chromium w) sync_playwright_exit) eqn:Hexit.
  - rewrite (invoke_last_fault _ (add_calls _ w) _ Hexit), add_calls_add_calls.
    by rewrite <- !(assoc_L (++)).
  - rewrite (invoke_last_ok _ (add_calls _ w) Hexit), add_calls_add_calls.
    by rewrite <- !(assoc_L (++)).
Qed.

(** C6, amended. Once browser, context and page are acquired, whatever
    the try block does, the closing sequence runs after it: the page is
    closed first, then the context, then the browser, the sequence ending
    behind the first close that raises (all three are closed when none
    raises). No fault of a close changes what the render returns or
    raises. *)
Theorem render_pdf_cleanup (w : world) :
  fault (chromium w) sync_playwright_enter = None ->
  fault (chromium w) chromium_launch = None ->
  fault (chromium w) (browser_new_context true) = None ->
  fault (chromium w) context_new_page = None ->
  (exists body_calls,
     calls (render w).2
     = calls w
       ++ [sync_playwright_enter; chromium_launch; browser_new_context true;
           context_new_page]
       ++ body_calls ++ release_calls (chromium w) ++ [sync_playwright_exit]
     ∧ Forall (fun c => is_release c = false) body_calls)
  ∧ ((forall c, is_release c = true -> fault (chromium w) c = None) ->
     release_calls (chromium w) = [page_close; context_close; browser_close])
  ∧ (render w).1 = (render (set_chromium (with_reliable_cleanup (chromium w)) w)).1.
Proof.
  intros Henter Hlaunch Hctx Hpage. split_and!.
  - rewrite render_pdf_run by done.
    exists (try_block (chromium w) html wait_timeout_ms args).2.
    split; [done | apply try_block_calls_not_release].
  - intros Hclose. unfold release_calls. by rewrite !Hclose.
  - rewrite render_pdf_run by done.
    rewrite render_pdf_run by done.
    reflexivity.
Qed.

End RenderPdf.

Lemma render_pdf_cleanup_witness :
  (render_pdf (str "<p>hello</p>") None (Some (str "A4")) None None
     sample_margins false true PrimFloat.one None None true 30000
     (sample_world stubborn_page)).1
  = (render_pdf (str "<p>hello</p>") None (Some (str "A4")) None None
       sample_margins false true PrimFloat.one None None true 30000
       (set_chromium (with_reliable_cleanup stubborn_page)
          (sample_world stubborn_page))).1.
Proof.
  destruct (render_pdf_cleanup (str "<p>hello</p>") None (Some (str "A4"))
              None None sample_margins false true PrimFloat.one None None
              true 30000 (sample_world stubborn_page))
    as (_ & _ & H).
  - reflexivity.
  - reflexivity.
  - reflexivity.
  - reflexivity.
  - exact H.
Defined.

(** ** The two decoding paths *)

Lemma decode_html_bytes_run (html_bytes : bytes) (w : world) :
  decode_html_bytes html_bytes w
  = (Ok (default (Byte.to_N <$> html_bytes)
                 (Codec.utf8_decode Codec.strict html_bytes)), w).
Proof.
  unfold decode_html_bytes, try_except, decode_utf8, decode_latin1.
  by destruct (Codec.utf8_decode Codec.strict html_bytes).
Qed.

(** C9. Whatever the bytes of a single HTML file, turning them into text
    raises nothing and yields a string: the strict UTF-8 decoding when
    there is one, the Latin-1 reading of the bytes otherwise. The
    single-file branch of the handler therefore always has its text. *)
Theorem decode_html_bytes_total (html_bytes : bytes) (w : world) :
  decode_html_bytes html_bytes w
  = (Ok (default (Byte.to_N <$> html_bytes)
                 (Codec.utf8_decode Codec.strict html_bytes)), w)
  ∧ forall f up, upload_data up = html_bytes ->
      exists html_text,
        resolve_single up f w
        = (Ok (html_text, or_none (strip (base_url_manual f))), w).
Proof.
  split; [apply decode_html_bytes_run|]. intros f up <-. eexists.
  unfold resolve_single, mbind, M_bind. by rewrite decode_html_bytes_run.
Qed.

Lemma decode_html_bytes_total_witness :
  exists html_text,
    resolve_single {| upload_name := "page.html"; upload_data := [Byte.xe9] |}
      (sample_form sample_upload) (sample_world quiet_engine)
    = (Ok (html_text, None), sample_world quiet_engine).
Proof.
  destruct (decode_html_bytes_total [Byte.xe9] (sample_world quiet_engine))
    as [_ H].
  apply (H (sample_form sample_upload)
           {| upload_name := "page.html"; upload_data := [Byte.xe9] |}).
  reflexivity.
Defined.




(** ** Storage *)

Lemma bind_ok {A B} (m : M A) (k : A -> M B) w a w' :
  m w = (Ok a, w') -> (m ≫= k) w = k a w'.
Proof. intros H. unfold mbind, M_bind. by rewrite H. Qed.

Lemma bind_raise {A B} (m : M A) (k : A -> M B) w e w' :
  m w = (Raise e, w') -> (m ≫= k) w = (Raise e, w').
Proof. intros H. unfold mbind, M_bind. by rewrite H. Qed.

(** Unfolds the primitive statements of a run. *)
Ltac run :=
  unfold mbind, M_bind, mret, M_ret, stat, put, gets, modify, raise in *;
  simpl in *.

Lemma keeps_refl w : keeps w w.
Proof. by intros p. Qed.

Lemma keeps_trans w1 w2 w3 : keeps w1 w2 -> keeps w2 w3 -> keeps w1 w3.
Proof. intros H12 H23 p Hp. by apply H23, H12. Qed.

Lemma keeps_put w p n : keeps w (set_disk (<[p := n]> (disk w)) w).
Proof.
  intros q Hq. simpl. destruct (decide (p = q)) as [->|Hne].
  - rewrite lookup_insert_eq. by eexists.
  - by rewrite lookup_insert_ne.
Qed.

Lemma write_bytes_keeps p data w r w' :
  write_bytes p data w = (r, w') -> keeps w w'.
Proof.
  unfold write_bytes. intros Hrun. run.
  destruct (disk w !! p) as [[old|]|];
    [| injection Hrun as _ <-; apply keeps_refl |];
    destruct (storage_fault w p data) as [[|written]|];
    injection Hrun as _ <-; first [apply keeps_refl | apply keeps_put].
Qed.

(** A write that returns has put all of the data in the file. *)
Lemma write_bytes_ok p data w w' :
  write_bytes p data w = (Ok tt, w') ->
  storage_fault w p data = None
  ∧ w' = set_disk (<[p := File data]> (disk w)) w.
Proof.
  unfold write_bytes. intros Hrun. run.
  destruct (disk w !! p) as [[old|]|]; [| done |];
    destruct (storage_fault w p data) as [[|written]|]; by simplify_eq.
Qed.

Lemma write_bytes_run p data w :
  disk w !! p ≠ Some Dir -> storage_fault w p data = None ->
  write_bytes p data w = (Ok tt, set_disk (<[p := File data]> (disk w)) w).
Proof.
  unfold write_bytes. intros Hp Hfault. run.
  destruct (disk w !! p) as [[old|]|]; [| done |]; by rewrite Hfault.
Qed.

Lemma write_bytes_fault p data w fl before :
  disk w !! p = Some (File before) -> storage_fault w p data = Some fl ->
  exists w',
    write_bytes p data w = (Raise (OSError p), w')
    ∧ disk w' = <[p := File (left_by fl before data)]> (disk w)
    ∧ tmp_names w' = tmp_names w ∧ chromium w' = chromium w
    ∧ calls w' = calls w ∧ ui w' = ui w
    ∧ cleanup_paths w' = cleanup_paths w.
Proof.
  unfold write_bytes. intros Hp Hfault. run. rewrite Hp, Hfault.
  destruct fl as [|written]; eexists; (split; [reflexivity|]); simpl;
    split_and!; try done.
  by rewrite insert_id.
Qed.

Lemma fresh_name_spec d prefix suffix names p rest :
  fresh_name d prefix suffix names = Some (p, rest) -> d !! p = None.
Proof.
  induction names as [|n names IH]; [done|]. simpl.
  case_bool_decide as Htaken; [done|].
  intros [= <- <-]. by apply eq_None_not_Some.
Qed.

Lemma mktemp_ok kind prefix suffix w p w' :
  mktemp kind prefix suffix w = (Ok p, w') ->
  disk w !! p = None ∧ disk w' = <[p := kind]> (disk w)
  ∧ chromium w' = chromium w ∧ calls w' = calls w ∧ ui w' = ui w
  ∧ cleanup_paths w' = cleanup_paths w.
Proof.
  unfold mktemp.
  destruct (fresh_name (disk w) prefix suffix (tmp_names w))
    as [[q rest]|] eqn:Hfresh; [|done].
  intros [= <- <-]. split; [by eapply fresh_name_spec | done].
Qed.

Section ResolverFacts.

Variable zip_members : bytes -> option (list zip_member).
Variable walk : gmap path node -> path -> list path.

(** The scan meets exactly what lies below its root, in some order. *)
Hypothesis walk_spec : forall d root p,
  p ∈ walk d root <-> is_Some (d !! p) ∧ below root p.

Lemma makedirs_keeps rel : forall base w r w',
  makedirs base rel w = (r, w') -> keeps w w'.
Proof.
  induction rel as [|c rel IH]; intros base w r w' Hrun.
  - run. injection Hrun as _ <-. apply keeps_refl.
  - simpl in Hrun. run.
    destruct (disk w !! (base ++ [c])) as [[data|]|] eqn:Hn.
    + injection Hrun as _ <-. apply keeps_refl.
    + by eapply IH.
    + eapply keeps_trans; [apply (keeps_put w (base ++ [c]) Dir)|].
      by eapply IH.
Qed.

Lemma extract_member_keeps extract_dir m w r w' :
  extract_member extract_dir m w = (r, w') -> keeps w w'.
Proof.
  unfold extract_member. intros Hrun. run.
  destruct (makedirs extract_dir (parent (filename m)) w) as [[[]|e] w1] eqn:Hdirs;
    [|injection Hrun as _ <-; by eapply makedirs_keeps].
  apply makedirs_keeps in Hdirs.
  eapply keeps_trans; [exact Hdirs|].
  destruct (is_dir m); [|by eapply write_bytes_keeps].
  destruct (disk w1 !! (extract_dir ++ filename m)) as [[data|]|];
    injection Hrun as _ <-;
    first [apply keeps_refl | apply keeps_put].
Qed.

Lemma extract_member_present extract_dir m w w' :
  extract_member extract_dir m w = (Ok tt, w') ->
  is_Some (disk w' !! (extract_dir ++ filename m)).
Proof.
  unfold extract_member. intros Hrun. run.
  destruct (makedirs extract_dir (parent (filename m)) w) as [[[]|e] w1] eqn:Hdirs;
    [|done].
  destruct (is_dir m).
  - destruct (disk w1 !! (extract_dir ++ filename m)) as [[data|]|] eqn:Hn;
      simplify_eq/=; rewrite ?lookup_insert_eq, ?Hn; by eexists.
  - apply write_bytes_ok in Hrun as [_ ->]. simpl.
    rewrite lookup_insert_eq. by eexists.
Qed.

Lemma extractall_keeps extract_dir zf : forall w r w',
  extractall zf extract_dir w = (r, w') -> keeps w w'.
Proof.
  unfold extractall.
  induction zf as [|m zf IH]; intros w r w' Hrun.
  - run. injection Hrun as _ <-. apply keeps_refl.
  - simpl in Hrun. unfold mbind, M_bind in Hrun.
    destruct (extract_member extract_dir m w) as [[[]|e] w1] eqn:Hm.
    + eapply keeps_trans; [by eapply extract_member_keeps | by eapply IH].
    + injection Hrun as _ <-. by eapply extract_member_keeps.
Qed.

(** After a successful extraction every member is on storage. *)
Lemma extractall_present extract_dir zf : forall w w' m,
  extractall zf extract_dir w = (Ok tt, w') -> m ∈ zf ->
  is_Some (disk w' !! (extract_dir ++ filename m)).
Proof.
  unfold extractall.
  induction zf as [|m0 zf IH]; intros w w' m Hrun Hin.
  - by apply elem_of_nil in Hin.
  - simpl in Hrun. unfold mbind, M_bind in Hrun.
    destruct (extract_member extract_dir m0 w) as [[[]|e] w1] eqn:Hm0; [|done].
    apply elem_of_cons in Hin as [->|Hin].
    + apply (extractall_keeps extract_dir zf _ _ _ Hrun).
      by eapply extract_member_present.
    + by eapply IH.
Qed.

Lemma find_html_in_zip_run zip_path w data zf extract_dir w0 w1 :
  disk w !! zip_path = Some (File data) ->
  zip_members data = Some zf ->
  mkdtemp "html2pdf_zip_" w = (Ok extract_dir, w0) ->
  extractall zf extract_dir w0 = (Ok tt, w1) ->
  find_html_in_zip zip_members walk zip_path w
  = (Ok (if bool_decide (is_Some (disk w1 !! (extract_dir ++ ["index.html"])))
         then Some (extract_dir ++ ["index.html"])
         else first_page walk (disk w1) extract_dir), w1).
Proof.
  intros Hzip Hzf Htmp Hextract. unfold find_html_in_zip.
  rewrite (bind_ok _ _ _ _ _ Htmp).
  apply mktemp_ok in Htmp as (Hfresh & Hdisk & _).
  assert (Hopen : ZipFile zip_members zip_path w0 = (Ok zf, w0)).
  { unfold ZipFile. run. rewrite Hdisk, lookup_insert_ne by congruence.
    by rewrite Hzip, Hzf. }
  rewrite (bind_ok _ _ _ _ _ Hopen), (bind_ok _ _ _ _ _ Hextract).
  unfold path_exists, rglob, first_page. run.
  by case_bool_decide.
Qed.

Lemma head_elem_of {A} (l : list A) x : head l = Some x -> x ∈ l.
Proof. destruct l; [done|]. intros [= ->]. apply list_elem_of_here. Qed.

Lemma head_nil {A} (l : list A) : head l = None <-> l = [].
Proof. by destruct l. Qed.

Lemma first_page_html_like d extract_dir e :
  first_page walk d extract_dir = Some e -> html_like d extract_dir e.
Proof.
  unfold first_page. intros He%head_elem_of.
  apply elem_of_app in He as [He|He];
    apply list_elem_of_filter in He as [Hname Hwalk];
    apply walk_spec in Hwalk as [Hthere Hbelow];
    simpl in Hname; unfold html_like; auto.
Qed.

Lemma first_page_none d extract_dir :
  first_page walk d extract_dir = None <-> ¬ exists p, html_like d extract_dir p.
Proof.
  unfold first_page. rewrite head_nil. split.
  - intros Hnil (p & Hthere & Hbelow & Hname).
    apply app_eq_nil in Hnil as [Hhtml Hhtm].
    assert (Hwalk : p ∈ walk d extract_dir) by (apply walk_spec; auto).
    destruct Hname as [Hname|Hname].
    + assert (Hp : p ∈ filter (fun p => fnmatch (name p) "*.html" = true)
                          (walk d extract_dir))
        by (apply list_elem_of_filter; auto).
      rewrite Hhtml in Hp. by apply elem_of_nil in Hp.
    + assert (Hp : p ∈ filter (fun p => fnmatch (name p) "*.htm" = true)
                          (walk d extract_dir))
        by (apply list_elem_of_filter; auto).
      rewrite Hhtm in Hp. by apply elem_of_nil in Hp.
  - intros Hnone.
    destruct (filter _ _ ++ filter _ _) as [|e l] eqn:Hl; [done|].
    exfalso. apply Hnone. exists e.
    apply first_page_html_like. unfold first_page. by rewrite Hl.
Qed.



Lemma read_text_never_stops entry w e w' :
  read_text entry w = (Raise e, w') -> e ≠ StopException.
Proof.
  unfold read_text, decode_utf8. run.
  destruct (disk w !! entry) as [[data|]|]; [|congruence..].
  destruct (Codec.utf8_decode Codec.ignore data); congruence.
Qed.

Lemma resolve_zip_run up w tmp_zip wa :
  mkstemp "html2pdf_" ".zip" w = (Ok tmp_zip, wa) ->
  storage_fault wa tmp_zip (upload_data up) = None ->
  resolve_zip zip_members walk up w
  = (entry ← find_html_in_zip zip_members walk tmp_zip;
     match entry with
     | None => show (st_error no_entry_msg) ;; st_stop
     | Some entry =>
       entry_exists ← path_exists entry;
       if negb entry_exists then show (st_error no_entry_msg) ;; st_stop
       else
         html_text ← read_text entry;
         mret (html_text, Some (as_uri (parent entry)))
     end) (staged up tmp_zip wa).
Proof.
  intros Htmp Hwrite. unfold resolve_zip.
  rewrite (bind_ok _ _ _ _ _ Htmp).
  apply mktemp_ok in Htmp as (_ & Hdisk & _).
  rewrite (bind_ok _ _ _ _ _ (write_bytes_run _ _ _
             ltac:(by rewrite Hdisk, lookup_insert_eq) Hwrite)).
  reflexivity.
Qed.

(** C7. When the archive holds a member named index.html at its root,
    wherever it stands among the members, and the extraction goes through,
    [find_html_in_zip] returns the index.html at the extraction root. *)
Theorem index_html_is_preferred zip_path w data zf extract_dir w0 w1 :
  disk w !! zip_path = Some (File data) ->
  zip_members data = Some zf ->
  mkdtemp "html2pdf_zip_" w = (Ok extract_dir, w0) ->
  extractall zf extract_dir w0 = (Ok tt, w1) ->
  (exists m, m ∈ zf ∧ filename m = ["index.html"]) ->
  find_html_in_zip zip_members walk zip_path w
  = (Ok (Some (extract_dir ++ ["index.html"])), w1).
Proof.
  intros Hzip Hzf Htmp Hextract (m & Hm & Hname).
  rewrite (find_html_in_zip_run _ _ _ _ _ _ _ Hzip Hzf Htmp Hextract).
  rewrite bool_decide_eq_true_2; [done|].
  rewrite <- Hname. by eapply extractall_present.
Qed.


(** X22. For an upload whose copy is written, whose extraction goes
    through and leaves no index.html at the extraction root: the entry
    returned, if any, is a node of the extracted tree, a file or a
    directory, that lies below the root and has a name ending in ".html"
    or ".htm"; none is returned exactly when the tree has no such node;
    and the conversion stops with the no-HTML-found error exactly in that
    case. *)
Theorem entry_point_found_iff_html_like up w tmp_zip wa zf extract_dir w0 w1 :
  mkstemp "html2pdf_" ".zip" w = (Ok tmp_zip, wa) ->
  storage_fault wa tmp_zip (upload_data up) = None ->
  zip_members (upload_data up) = Some zf ->
  mkdtemp "html2pdf_zip_" (staged up tmp_zip wa) = (Ok extract_dir, w0) ->
  extractall zf extract_dir w0 = (Ok tt, w1) ->
  disk w1 !! (extract_dir ++ ["index.html"]) = None ->
  exists entry,
    find_html_in_zip zip_members walk tmp_zip (staged up tmp_zip wa)
    = (Ok entry, w1)
    ∧ (forall e, entry = Some e -> html_like (disk w1) extract_dir e)
    ∧ (entry = None <-> ¬ exists p, html_like (disk w1) extract_dir p)
    ∧ (stopped_with no_entry_msg (resolve_zip zip_members walk up w)
       <-> ¬ exists p, html_like (disk w1) extract_dir p).
Proof.
  intros Hstage Hwrite Hzf Htmp Hextract Hidx.
  assert (Hzip : disk (staged up tmp_zip wa) !! tmp_zip
                 = Some (File (upload_data up))).
  { simpl. apply lookup_insert_eq. }
  pose proof (find_html_in_zip_run _ _ _ _ _ _ _ Hzip Hzf Htmp Hextract) as Hfind.
  rewrite bool_decide_eq_false_2 in Hfind by (rewrite Hidx; by intros [? ?]).
  exists (first_page walk (disk w1) extract_dir).
  split_and!; [done | apply first_page_html_like | apply first_page_none |].
  rewrite (resolve_zip_run _ _ _ _ Hstage Hwrite), (bind_ok _ _ _ _ _ Hfind).
  rewrite <- first_page_none.
  destruct (first_page walk (disk w1) extract_dir) as [e|] eqn:Hentry.
  - split; [|done]. intros [Hstop _]. exfalso.
    apply first_page_html_like in Hentry as (Hthere & _).
    unfold path_exists in Hstop. run.
    rewrite bool_decide_eq_true_2 in Hstop by done. simpl in Hstop.
    destruct (read_text e w1) as [[t|ex] w2] eqn:Hread; [done|].
    apply read_text_never_stops in Hread. simpl in Hstop. congruence.
  - split; [done|]. intros _. unfold stopped_with, show, st_stop. run.
    split; [done | apply last_snoc].
Qed.

End ResolverFacts.

(** The sample scan is a scan. *)
Lemma belowb_below root p : belowb root p = true <-> below root p.
Proof.
  unfold belowb, below. rewrite andb_true_iff, !bool_decide_eq_true. split.
  - intros [Htake Hlen]. exists (drop (length root) p). split.
    + intros Hnil. apply (f_equal length) in Hnil.
      rewrite length_drop in Hnil. simpl in Hnil. lia.
    + by rewrite <- Htake at 1; rewrite take_drop.
  - intros (rel & Hrel & ->). split.
    + by rewrite take_app_length.
    + rewrite length_app. destruct rel; [done|]. simpl. lia.
Qed.

Lemma scan_spec d root p :
  p ∈ scan d root <-> is_Some (d !! p) ∧ below root p.
Proof.
  unfold scan. rewrite list_elem_of_filter, belowb_below, list_elem_of_fmap.
  split.
  - intros [Hbelow ([q n] & -> & Hq)]. apply elem_of_map_to_list in Hq.
    split; [by eexists | done].
  - intros [[n Hn] Hbelow]. split; [done|].
    exists (p, n). split; [done | by apply elem_of_map_to_list].
Qed.

Lemma index_html_is_preferred_witness :
  find_html_in_zip site_zip scan sample_tmp_zip staged_world
  = (Ok (Some (sample_extract_dir ++ ["index.html"])),
     extracted_world site_members).
Proof.
  apply (index_html_is_preferred site_zip scan sample_tmp_zip staged_world
           (upload_data sample_upload) site_members sample_extract_dir
           tmpdir_world (extracted_world site_members)).
  - vm_compute. reflexivity.
  - reflexivity.
  - vm_compute. reflexivity.
  - vm_compute. reflexivity.
  - exists {| filename := ["index.html"]; is_dir := false;
              content := [Byte.x3c; Byte.x68; Byte.x31; Byte.x3e] |}.
    split; [|reflexivity].
    apply list_elem_of_further, list_elem_of_further, list_elem_of_here.
Defined.


Lemma entry_point_found_iff_html_like_witness :
  exists entry,
    find_html_in_zip pages_zip scan sample_tmp_zip staged_world
    = (Ok entry, extracted_world pages_members)
    ∧ (forall e, entry = Some e ->
         html_like (disk (extracted_world pages_members)) sample_extract_dir e)
    ∧ (entry = None <->
         ¬ exists p, html_like (disk (extracted_world pages_members))
                       sample_extract_dir p)
    ∧ (stopped_with no_entry_msg
         (resolve_zip pages_zip scan sample_upload (sample_world quiet_engine))
       <-> ¬ exists p, html_like (disk (extracted_world pages_members))
                         sample_extract_dir p).
Proof.
  apply (entry_point_found_iff_html_like pages_zip scan scan_spec
           sample_upload (sample_world quiet_engine) sample_tmp_zip
           uploaded_world pages_members sample_extract_dir tmpdir_world
           (extracted_world pages_members)).
  - vm_compute. reflexivity.
  - reflexivity.
  - reflexivity.
  - vm_compute. reflexivity.
  - vm_compute. reflexivity.
  - vm_compute. reflexivity.
Defined.

(** ** The handler *)

(** C2. An archive with a root index.html is converted with success.
    When the handler is done the temporary copy of the archive is gone,
    while the directory it was extracted into and the files in it are
    still on storage: only the copy was listed for removal. *)
Theorem extraction_dir_outlives_conversion :
  let run := generate site_zip scan (sample_form sample_upload)
               (sample_world quiet_engine) in
  run.1 = Ok tt
  ∧ cleanup_paths run.2 = [sample_tmp_zip]
  ∧ disk run.2 !! sample_tmp_zip = None
  ∧ disk run.2 !! sample_extract_dir = Some Dir
  ∧ disk run.2 !! (sample_extract_dir ++ ["index.html"])
    = Some (File [Byte.x3c; Byte.x68; Byte.x31; Byte.x3e])
  ∧ disk run.2 !! (sample_extract_dir ++ ["style.css"]) = Some (File []).
Proof. vm_compute. repeat split. Qed.

(** C8. An archive whose only member is the file docs.html/readme.txt
    has no index.html at its root and no entry with a name ending in
    ".html" or ".htm", so the specification asks for the no-HTML-found
    error. Yet the fallback search returns the directory docs.html, the
    handler takes it for a page, and reading it raises an OS error that
    escapes: the no-HTML-found message is never shown, nothing at all is
    shown, and the browser is never called. *)
Theorem html_directory_is_taken_for_a_page :
  let run := generate bundle_zip scan (sample_form sample_upload)
               (sample_world quiet_engine) in
  Forall (fun m => filename m ≠ ["index.html"]
                   ∧ ends_with ".html" (name (filename m)) = false
                   ∧ ends_with ".htm" (name (filename m)) = false)
         bundle_members
  ∧ find_html_in_zip bundle_zip scan sample_tmp_zip staged_world
    = (Ok (Some (sample_extract_dir ++ ["docs.html"])),
       extracted_world bundle_members)
  ∧ disk (extracted_world bundle_members) !! (sample_extract_dir ++ ["docs.html"])
    = Some Dir
  ∧ run.1 = Raise (OSError (sample_extract_dir ++ ["docs.html"]))
  ∧ ¬ stopped_with no_entry_msg run
  ∧ ui run.2 = [] ∧ calls run.2 = [].
Proof.
  split_and!.
  - by repeat constructor.
  - by vm_compute.
  - by vm_compute.
  - by vm_compute.
  - intros [Hstop _]. by vm_compute in Hstop.
  - by vm_compute.
  - by vm_compute.
Qed.

(** ** Directories outlive the handler *)

Create HintDb stable.

Lemma keeps_dirs_refl w : keeps_dirs w w.
Proof. by intros p. Qed.

Lemma keeps_dirs_trans w1 w2 w3 :
  keeps_dirs w1 w2 -> keeps_dirs w2 w3 -> keeps_dirs w1 w3.
Proof. intros H12 H23 p Hp. by apply H23, H12. Qed.

Lemma keeps_dirs_same_disk w w' : disk w' = disk w -> keeps_dirs w w'.
Proof. intros Hd p. by rewrite Hd. Qed.

Lemma keeps_dirs_put w p n :
  disk w !! p ≠ Some Dir -> keeps_dirs w (set_disk (<[p := n]> (disk w)) w).
Proof.
  intros Hp q Hq. simpl. rewrite lookup_insert_ne; [done|]. congruence.
Qed.

Lemma dir_stable_ret {A} (a : A) : dir_stable (mret a).
Proof. intros w. apply keeps_dirs_refl. Qed.

Lemma dir_stable_raise {A} e : dir_stable (@raise A e).
Proof. intros w. apply keeps_dirs_refl. Qed.

Lemma dir_stable_st_stop {A} : dir_stable (@st_stop A).
Proof. apply dir_stable_raise. Qed.

Lemma dir_stable_gets {A} (f : world -> A) : dir_stable (gets f).
Proof. intros w. apply keeps_dirs_refl. Qed.

Lemma dir_stable_modify f :
  (forall w, disk (f w) = disk w) -> dir_stable (modify f).
Proof. intros Hf w. apply keeps_dirs_same_disk, Hf. Qed.

Lemma dir_stable_bind {A B} (m : M A) (k : A -> M B) :
  dir_stable m -> (forall a, dir_stable (k a)) -> dir_stable (m ≫= k).
Proof.
  intros Hm Hk w. specialize (Hm w). unfold mbind, M_bind.
  destruct (m w) as [[a|e] w1]; [|done].
  eapply keeps_dirs_trans; [exact Hm | apply Hk].
Qed.

Lemma dir_stable_try_except {A} (body : M A) handler :
  dir_stable body -> (forall e h, handler e = Some h -> dir_stable h) ->
  dir_stable (try_except body handler).
Proof.
  intros Hbody Hh w. specialize (Hbody w). unfold try_except.
  destruct (body w) as [[a|e] w1]; [done|].
  destruct (handler e) as [h|] eqn:He; [|done].
  eapply keeps_dirs_trans; [exact Hbody | by eapply Hh].
Qed.

Lemma dir_stable_try_finally {A} (body : M A) cleanup :
  dir_stable body -> dir_stable cleanup -> dir_stable (try_finally body cleanup).
Proof.
  intros Hbody Hc w. specialize (Hbody w). unfold try_finally.
  destruct (body w) as [r w1]. specialize (Hc w1).
  destruct (cleanup w1) as [[[]|e] w2];
    eapply keeps_dirs_trans; [exact Hbody | exact Hc | exact Hbody | exact Hc].
Qed.

Lemma dir_stable_suppress body : dir_stable body -> dir_stable (suppress body).
Proof.
  intros Hbody. apply dir_stable_try_except; [done|].
  intros e h. destruct (is_Exception e); [|done].
  intros [= <-]. apply dir_stable_ret.
Qed.

Lemma dir_stable_for_each {A} (l : list A) body :
  (forall x, dir_stable (body x)) -> dir_stable (for_each l body).
Proof.
  intros Hbody. induction l as [|x l IH]; simpl.
  - apply dir_stable_ret.
  - apply dir_stable_bind; [apply Hbody | by intros _].
Qed.

Lemma dir_stable_invoke c : dir_stable (invoke c).
Proof.
  intros w. unfold invoke.
  by destruct (fault (chromium w) c); apply keeps_dirs_same_disk.
Qed.

Lemma dir_stable_show e : dir_stable (show e).
Proof. by apply dir_stable_modify. Qed.

Lemma dir_stable_stat p : dir_stable (stat p).
Proof. apply dir_stable_gets. Qed.

Lemma dir_stable_mktemp kind prefix suffix :
  dir_stable (mktemp kind prefix suffix).
Proof.
  intros w. destruct (mktemp kind prefix suffix w) as [[p|e] w'] eqn:Hrun.
  - apply mktemp_ok in Hrun as (Hfresh & Hdisk & _).
    intros q Hq. simpl. rewrite Hdisk, lookup_insert_ne; [done|]. congruence.
  - unfold mktemp in Hrun.
    destruct (fresh_name _ _ _ _) as [[q rest]|]; [done|].
    injection Hrun as _ <-. apply keeps_dirs_refl.
Qed.

Lemma dir_stable_write_bytes p data : dir_stable (write_bytes p data).
Proof.
  intros w. unfold write_bytes. run.
  destruct (disk w !! p) as [[old|]|] eqn:Hp; simpl;
    [| apply keeps_dirs_refl |];
    destruct (storage_fault w p data) as [[|written]|]; simpl;
    first [apply keeps_dirs_refl | apply keeps_dirs_put; congruence].
Qed.

Lemma dir_stable_os_remove p : dir_stable (os_remove p).
Proof.
  intros w. unfold os_remove. run.
  destruct (disk w !! p) as [[old|]|] eqn:Hp; simpl;
    try apply keeps_dirs_refl.
  intros q Hq. simpl. rewrite lookup_delete_ne; [done|]. congruence.
Qed.

Lemma dir_stable_makedirs rel : forall base, dir_stable (makedirs base rel).
Proof.
  induction rel as [|c rel IH]; intros base w; simpl.
  - apply keeps_dirs_refl.
  - run. destruct (disk w !! (base ++ [c])) as [[data|]|] eqn:Hn; simpl.
    + apply keeps_dirs_refl.
    + apply IH.
    + eapply keeps_dirs_trans; [|apply IH].
      apply keeps_dirs_put. congruence.
Qed.

Lemma dir_stable_extract_member extract_dir m :
  dir_stable (extract_member extract_dir m).
Proof.
  intros w. unfold extract_member. run.
  pose proof (dir_stable_makedirs (parent (filename m)) extract_dir w) as Hdirs.
  destruct (makedirs extract_dir (parent (filename m)) w) as [[[]|e] w1];
    [|done].
  simpl in Hdirs. eapply keeps_dirs_trans; [exact Hdirs|].
  destruct (is_dir m); [|apply dir_stable_write_bytes].
  destruct (disk w1 !! (extract_dir ++ filename m)) as [[data|]|] eqn:Hn;
    simpl; first [apply keeps_dirs_refl | apply keeps_dirs_put; congruence].
Qed.

Lemma dir_stable_read_text entry : dir_stable (read_text entry).
Proof.
  intros w. unfold read_text, decode_utf8. run.
  destruct (disk w !! entry) as [[data|]|]; try apply keeps_dirs_refl.
  destruct (Codec.utf8_decode Codec.ignore data); apply keeps_dirs_refl.
Qed.

Lemma dir_stable_decode_html_bytes html_bytes :
  dir_stable (decode_html_bytes html_bytes).
Proof.
  intros w. rewrite decode_html_bytes_run. apply keeps_dirs_refl.
Qed.

#[local] Hint Resolve dir_stable_ret dir_stable_raise dir_stable_st_stop
  dir_stable_gets
  dir_stable_bind dir_stable_try_except dir_stable_try_finally
  dir_stable_suppress dir_stable_for_each dir_stable_invoke dir_stable_show
  dir_stable_stat dir_stable_mktemp dir_stable_write_bytes
  dir_stable_os_remove dir_stable_extract_member dir_stable_read_text
  dir_stable_decode_html_bytes : stable.

Lemma dir_stable_render_pdf html base_url format_name width height margins
    landscape print_background scale header_template footer_template
    prefer_css_page_size wait_timeout_ms :
  dir_stable (render_pdf html base_url format_name width height margins
                landscape print_background scale header_template
                footer_template prefer_css_page_size wait_timeout_ms).
Proof.
  unfold render_pdf, with_sync_playwright, page_pdf_bytes.
  auto 20 with stable.
Qed.

Section Leak.

Variable zip_members : bytes -> option (list zip_member).
Variable walk : gmap path node -> path -> list path.

(** What [find_html_in_zip] does once the extraction directory is made. *)
Lemma dir_stable_after_mkdtemp zip_path extract_dir :
  dir_stable
    (zf ← ZipFile zip_members zip_path;
     extractall zf extract_dir ;;
     idx_exists ← path_exists (extract_dir ++ ["index.html"]);
     if (idx_exists : bool) then mret (Some (extract_dir ++ ["index.html"]))
     else
       html ← rglob walk extract_dir "*.html";
       htm ← rglob walk extract_dir "*.htm";
       mret (head (html ++ htm))).
Proof.
  apply dir_stable_bind.
  { unfold ZipFile. apply dir_stable_bind; [auto with stable|].
    intros [[data|]|]; [|auto with stable..].
    destruct (zip_members data); auto with stable. }
  intros zf. apply dir_stable_bind; [unfold extractall; auto with stable|].
  intros _. unfold path_exists, rglob.
  apply dir_stable_bind; [auto with stable|].
  intros []; auto 10 with stable.
Qed.

Lemma bind_dir_at {A B} (m : M A) (k : A -> M B) w p :
  disk (m w).2 !! p = Some Dir -> (forall a, dir_stable (k a)) ->
  disk ((m ≫= k) w).2 !! p = Some Dir.
Proof.
  intros Hm Hk. unfold mbind, M_bind.
  destruct (m w) as [[a|e] w1]; [|done]. by apply Hk.
Qed.

Lemma try_finally_dir_at {A} (body : M A) cleanup w p :
  disk (body w).2 !! p = Some Dir -> dir_stable cleanup ->
  disk (try_finally body cleanup w).2 !! p = Some Dir.
Proof.
  intros Hbody Hc. unfold try_finally.
  destruct (body w) as [r w1]. specialize (Hc w1 p Hbody).
  by destruct (cleanup w1) as [[[]|e] w2].
Qed.

(** X14. On every exit path of a ZIP conversion that got as far as making
    its extraction directory (the copy of the upload is written, the
    directory is made), that directory is still on storage when the
    handler is done. *)
Lemma extract_dir_is_never_removed f up w tmp_zip wa extract_dir w0 :
  uploaded f = Some up ->
  lower (suffix (Path (upload_name up))) = ".zip" ->
  mkstemp "html2pdf_" ".zip" (set_cleanup_paths [] w) = (Ok tmp_zip, wa) ->
  storage_fault wa tmp_zip (upload_data up) = None ->
  mkdtemp "html2pdf_zip_" (staged up tmp_zip wa) = (Ok extract_dir, w0) ->
  disk (generate zip_members walk f w).2 !! extract_dir = Some Dir.
Proof.
  intros Hup Hzip Hstage Hwrite Htmp. unfold generate. rewrite Hup, Hzip.
  destruct (decide (".zip" = ".zip")) as [_|Hne]; [|done].
  change ((modify (set_cleanup_paths []) ;; ?m) w)
    with (m (set_cleanup_paths [] w)).
  apply try_finally_dir_at; [|auto with stable].
  apply bind_dir_at.
  - rewrite (resolve_zip_run _ _ _ _ _ _ Hstage Hwrite).
    apply bind_dir_at.
    + unfold find_html_in_zip. rewrite (bind_ok _ _ _ _ _ Htmp).
      apply dir_stable_after_mkdtemp.
      apply mktemp_ok in Htmp as (_ & -> & _). apply lookup_insert_eq.
    + intros [entry|]; [|auto with stable].
      unfold path_exists. apply dir_stable_bind; [auto with stable|].
      intros []; simpl; auto with stable.
  - intros [html_text base_url].
    destruct (normalize_paper _ _ _) as [[format_name width] height].
    apply dir_stable_bind.
    + apply dir_stable_try_except; [apply dir_stable_render_pdf|].
      intros e h. destruct (is_PWTimeoutError e), (is_Exception e);
        intros [= <-]; auto with stable.
    + intros pdf_bytes. auto 10 with stable.
Qed.

End Leak.

(** ** Frames *)

#[local] Instance only_calls_preorder : PreOrder only_calls.
Proof.
  split.
  - intros w. exists []. destruct w. unfold add_calls. simpl.
    by rewrite (right_id_L [] (++)).
  - intros w1 w2 w3 [l1 ->] [l2 ->]. exists (l1 ++ l2).
    apply add_calls_add_calls.
Qed.

#[local] Instance only_storage_preorder : PreOrder only_storage.
Proof.
  split.
  - by intros w.
  - intros w1 w2 w3 (? & ? & ? & ?) (? & ? & ? & ?).
    unfold only_storage. split_and!; congruence.
Qed.

#[local] Instance keeps_file_preorder p : PreOrder (keeps_file p).
Proof.
  split.
  - by intros w.
  - intros w1 w2 w3 [Hc1 Hf1] [Hc2 Hf2]. split; [congruence|].
    intros data Hdata. by apply Hf2, Hf1.
Qed.

Section Preserves.

Context (R : world -> world -> Prop) `{!PreOrder R}.

Lemma preserves_ret {A} (a : A) : preserves R (mret a).
Proof. by intros w. Qed.

Lemma preserves_raise {A} e : preserves R (@raise A e).
Proof. by intros w. Qed.

Lemma preserves_st_stop {A} : preserves R (@st_stop A).
Proof. by intros w. Qed.

Lemma preserves_gets {A} (f : world -> A) : preserves R (gets f).
Proof. by intros w. Qed.

Lemma preserves_stat p : preserves R (stat p).
Proof. by intros w. Qed.

Lemma preserves_bind {A B} (m : M A) (k : A -> M B) :
  preserves R m -> (forall a, preserves R (k a)) -> preserves R (m ≫= k).
Proof.
  intros Hm Hk w. specialize (Hm w). unfold mbind, M_bind.
  destruct (m w) as [[a|e] w1]; [|done]. etrans; [exact Hm | apply Hk].
Qed.

Lemma preserves_try_except {A} (body : M A) handler :
  preserves R body -> (forall e h, handler e = Some h -> preserves R h) ->
  preserves R (try_except body handler).
Proof.
  intros Hbody Hh w. specialize (Hbody w). unfold try_except.
  destruct (body w) as [[a|e] w1]; [done|].
  destruct (handler e) as [h|] eqn:He; [|done].
  etrans; [exact Hbody | by eapply Hh].
Qed.

Lemma preserves_try_finally {A} (body : M A) cleanup :
  preserves R body -> preserves R cleanup ->
  preserves R (try_finally body cleanup).
Proof.
  intros Hbody Hc w. specialize (Hbody w). unfold try_finally.
  destruct (body w) as [r w1]. specialize (Hc w1).
  destruct (cleanup w1) as [[[]|e] w2]; by etrans.
Qed.

Lemma preserves_suppress body : preserves R body -> preserves R (suppress body).
Proof.
  intros Hbody. apply preserves_try_except; [done|].
  intros e h. destruct (is_Exception e); [|done].
  intros [= <-]. apply preserves_ret.
Qed.

Lemma preserves_for_each {A} (l : list A) body :
  (forall x, preserves R (body x)) -> preserves R (for_each l body).
Proof.
  intros Hbody. induction l as [|x l IH]; simpl.
  - apply preserves_ret.
  - apply preserves_bind; [apply Hbody | by intros _].
Qed.

(** From a point on: what holds after [m] holds after [m ≫= k]. *)
Lemma preserves_bind_from {A B} (m : M A) (k : A -> M B) w0 w :
  R w0 (m w).2 -> (forall a, preserves R (k a)) -> R w0 ((m ≫= k) w).2.
Proof.
  intros Hm Hk. unfold mbind, M_bind.
  destruct (m w) as [[a|e] w1]; [|done]. etrans; [exact Hm | apply Hk].
Qed.

End Preserves.

Create HintDb frame.

#[local] Hint Resolve preserves_ret preserves_raise preserves_st_stop
  preserves_gets preserves_stat preserves_bind preserves_try_except
  preserves_try_finally preserves_suppress preserves_for_each : frame.

(** Raised exceptions *)

Lemma raises_only_ret {A} P (a : A) : raises_only P (mret a).
Proof. by intros w e w'. Qed.

Lemma raises_only_gets {A} P (f : world -> A) : raises_only P (gets f).
Proof. by intros w e w'. Qed.

Lemma raises_only_bind {A B} P (m : M A) (k : A -> M B) :
  raises_only P m -> (forall a, raises_only P (k a)) -> raises_only P (m ≫= k).
Proof.
  intros Hm Hk w e w'. unfold mbind, M_bind.
  destruct (m w) as [[a|e1] w1] eqn:Hrun.
  - apply Hk.
  - intros [= <- <-]. by eapply Hm.
Qed.

Lemma raises_only_try_finally {A} P (body : M A) cleanup :
  raises_only P body -> raises_only P cleanup ->
  raises_only P (try_finally body cleanup).
Proof.
  intros Hbody Hc w e w'. unfold try_finally.
  destruct (body w) as [r w1] eqn:Hrun.
  destruct (cleanup w1) as [[[]|e1] w2] eqn:Hclean.
  - intros [= -> <-]. by eapply Hbody.
  - intros [= <- <-]. by eapply Hc.
Qed.

Lemma raises_only_suppress P body :
  raises_only P body -> raises_only P (suppress body).
Proof.
  intros Hbody w e w'. unfold suppress, try_except.
  destruct (body w) as [[[]|e1] w1] eqn:Hrun; [done|].
  destruct (is_Exception e1); [done|].
  intros [= <- <-]. by eapply Hbody.
Qed.

Lemma raises_only_invoke c : raises_only is_fault (invoke c).
Proof.
  intros w e w'. unfold invoke.
  destruct (fault (chromium w) c) as [f|]; [|done].
  intros [= <- <-]. by exists f.
Qed.

Lemma preserves_invoke c : preserves only_calls (invoke c).
Proof.
  intros w. exists [c]. unfold invoke.
  by destruct (fault (chromium w) c).
Qed.

(** ** More on render_pdf *)

#[local] Hint Resolve only_calls_preorder preserves_invoke raises_only_ret
  raises_only_gets raises_only_bind raises_only_try_finally
  raises_only_suppress raises_only_invoke : frame.

Lemma render_pdf_preserves_only_calls html base_url format_name width height
    margins landscape print_background scale header_template footer_template
    prefer_css_page_size wait_timeout_ms :
  preserves only_calls
    (render_pdf html base_url format_name width height margins landscape
       print_background scale header_template footer_template
       prefer_css_page_size wait_timeout_ms).
Proof.
  unfold render_pdf, with_sync_playwright, page_pdf_bytes.
  auto 20 with frame.
Qed.

Lemma render_pdf_raises_only_faults html base_url format_name width height
    margins landscape print_background scale header_template footer_template
    prefer_css_page_size wait_timeout_ms :
  raises_only is_fault
    (render_pdf html base_url format_name width height margins landscape
       print_background scale header_template footer_template
       prefer_css_page_size wait_timeout_ms).
Proof.
  unfold render_pdf, with_sync_playwright, page_pdf_bytes.
  auto 20 with frame.
Qed.

Section RenderPdfExtra.

Variables (html : text) (base_url format_name width height : option text)
          (margins : gmap string text) (landscape print_background : bool)
          (scale : PrimFloat.float) (header_template footer_template : option text)
          (prefer_css_page_size : bool) (wait_timeout_ms : Z).

Local Abbreviation render :=
  (render_pdf html base_url format_name width height margins landscape
     print_background scale header_template footer_template
     prefer_css_page_size wait_timeout_ms).

Local Abbreviation args :=
  (pdf_args format_name width height margins landscape print_background scale
     header_template footer_template prefer_css_page_size).

(** X1. [render_pdf] touches nothing but the browser: storage, the
    temporary names, the output shown to the user and the cleanup list are
    as before, and the calls already seen by the browser are still there,
    followed by the new ones. *)
Theorem render_pdf_touches_only_the_browser (w : world) :
  exists l,
    (render w).2 = add_calls l w
    ∧ disk (render w).2 = disk w ∧ ui (render w).2 = ui w
    ∧ tmp_names (render w).2 = tmp_names w
    ∧ cleanup_paths (render w).2 = cleanup_paths w
    ∧ calls (render w).2 = calls w ++ l.
Proof.
  destruct (render_pdf_preserves_only_calls html base_url format_name width
              height margins landscape print_background scale header_template
              footer_template prefer_css_page_size wait_timeout_ms w)
    as [l Hl].
  exists l. by rewrite Hl.
Qed.

(** X2. When nothing but a close can fail, [render_pdf] returns the
    printed document, and the browser has seen, in this order: the start
    of Playwright, the launch, a context with scripting enabled, a page,
    the content load waiting for network idle with the given timeout, the
    style rule, the print call with the assembled dictionary, the closes,
    and the stop of Playwright. *)
Theorem render_pdf_success (w : world) :
  (forall c, is_release c = false -> fault (chromium w) c = None) ->
  render w
  = (Ok (printed (chromium w) args),
     add_calls
       ([sync_playwright_enter; chromium_launch; browser_new_context true;
         context_new_page;
         page_set_content html "networkidle" wait_timeout_ms;
         page_add_style_tag page_margin_css; page_pdf args]
        ++ release_calls (chromium w) ++ [sync_playwright_exit]) w).
Proof.
  intros Hok. rewrite render_pdf_run by (by apply Hok).
  unfold try_block. by rewrite !Hok.
Qed.

(** X3. When the content load fails (a timeout or any other fault), the
    style rule is not injected and the print call is not made, while the
    closes still run and Playwright is stopped. The render raises the
    fault of the load, unless the stop of Playwright fails in its turn:
    then the fault of the stop is raised in its place. *)
Theorem render_pdf_load_fault (w : world) (f : pw_fault) :
  fault (chromium w) sync_playwright_enter = None ->
  fault (chromium w) chromium_launch = None ->
  fault (chromium w) (browser_new_context true) = None ->
  fault (chromium w) context_new_page = None ->
  fault (chromium w) (page_set_content html "networkidle" wait_timeout_ms)
  = Some f ->
  render w
  = (Raise (exn_of_fault
              (default f (fault (chromium w) sync_playwright_exit))),
     add_calls
       ([sync_playwright_enter; chromium_launch; browser_new_context true;
         context_new_page;
         page_set_content html "networkidle" wait_timeout_ms]
        ++ release_calls (chromium w) ++ [sync_playwright_exit]) w).
Proof.
  intros Henter Hlaunch Hctx Hpage Hload.
  rewrite render_pdf_run by done.
  unfold try_block. rewrite Hload.
  by destruct (fault (chromium w) sync_playwright_exit).
Qed.

(** X4. When the launch, the new context or the new page fails, the
    render raises, and no close is called: what was acquired before the
    failing step is not released by [render_pdf]. *)
Theorem render_pdf_failed_acquisition (w : world) :
  fault (chromium w) sync_playwright_enter = None ->
  is_Some (fault (chromium w) chromium_launch)
  ∨ is_Some (fault (chromium w) (browser_new_context true))
  ∨ is_Some (fault (chromium w) context_new_page) ->
  exists e l,
    render w = (Raise e, add_calls l w)
    ∧ Forall (fun c => is_release c = false) l.
Proof.
  intros Henter Hacq.
  unfold render_pdf, with_sync_playwright.
  rewrite (invoke_ok _ _ _ Henter). unfold try_finally at 1.
  assert (Hexit : forall e l,
    Forall (fun c => is_release c = false) l ->
    exists e' l',
      (match invoke sync_playwright_exit (add_calls l w) with
       | (Ok _, w'') => (@Raise bytes e, w'')
       | (Raise e0, w'') => (Raise e0, w'')
       end) = (Raise e', add_calls l' w)
      ∧ Forall (fun c => is_release c = false) l').
  { intros e l Hl.
    destruct (fault (chromium w) sync_playwright_exit) as [fx|] eqn:Hx.
    - rewrite (invoke_last_fault _ (add_calls _ w) _ Hx), add_calls_add_calls.
      eexists _, _. split; [done|]. apply Forall_app. by repeat constructor.
    - rewrite (invoke_last_ok _ (add_calls _ w) Hx), add_calls_add_calls.
      eexists _, _. split; [done|]. apply Forall_app. by repeat constructor. }
  destruct (fault (chromium w) chromium_launch) as [f1|] eqn:Hlaunch.
  { rewrite (invoke_fault _ _ (add_calls _ w) _ Hlaunch), add_calls_add_calls.
    apply Hexit. by repeat constructor. }
  rewrite (invoke_ok _ _ (add_calls _ w) Hlaunch), add_calls_add_calls.
  destruct (fault (chromium w) (browser_new_context true)) as [f2|] eqn:Hctx.
  { rewrite (invoke_fault _ _ (add_calls _ w) _ Hctx), add_calls_add_calls.
    apply Hexit. by repeat constructor. }
  rewrite (invoke_ok _ _ (add_calls _ w) Hctx), add_calls_add_calls.
  destruct (fault (chromium w) context_new_page) as [f3|] eqn:Hpage.
  { rewrite (invoke_fault _ _ (add_calls _ w) _ Hpage), add_calls_add_calls.
    apply Hexit. by repeat constructor. }
  destruct Hacq as [[? ?]|[[? ?]|[? ?]]]; done.
Qed.

(** X5. Whatever [render_pdf] raises is a fault of the rendering engine,
    hence an [Exception] and never the [StopException] of [st.stop()]. *)
Theorem render_pdf_raises_engine_faults (w : world) (e : exn) (w' : world) :
  render w = (Raise e, w') ->
  (exists f, e = exn_of_fault f) ∧ is_Exception e = true ∧ e ≠ StopException.
Proof.
  intros Hrun.
  destruct (render_pdf_raises_only_faults html base_url format_name width
              height margins landscape print_background scale header_template
              footer_template prefer_css_page_size wait_timeout_ms w e w' Hrun)
    as [f ->].
  split_and!; [by exists f | by destruct f | by destruct f].
Qed.

End RenderPdfExtra.

Lemma render_pdf_success_witness :
  (render_pdf (str "<p>hello</p>") None (Some (str "A4")) None None
     sample_margins false true PrimFloat.one None None true 30000
     (sample_world stubborn_page)).1
  = Ok [Byte.x25; Byte.x50; Byte.x44; Byte.x46].
Proof.
  rewrite (render_pdf_success (str "<p>hello</p>") None (Some (str "A4"))
             None None sample_margins false true PrimFloat.one None None
             true 30000 (sample_world stubborn_page)).
  - reflexivity.
  - intros c Hc. by destruct c.
Defined.

Lemma render_pdf_load_fault_witness :
  (render_pdf (str "<p>hello</p>") None (Some (str "A4")) None None
     sample_margins false true PrimFloat.one None None true 30000
     (sample_world slow_engine)).1
  = Raise (PWTimeoutError (str "Timeout 30000ms exceeded.")).
Proof.
  rewrite (render_pdf_load_fault (str "<p>hello</p>") None (Some (str "A4"))
             None None sample_margins false true PrimFloat.one None None
             true 30000 (sample_world slow_engine)
             (Timeout (str "Timeout 30000ms exceeded."))); reflexivity.
Defined.

Lemma render_pdf_failed_acquisition_witness :
  exists e l,
    render_pdf (str "<p>hello</p>") None (Some (str "A4")) None None
      sample_margins false true PrimFloat.one None None true 30000
      (sample_world no_context_engine)
    = (Raise e, add_calls l (sample_world no_context_engine))
    ∧ Forall (fun c => is_release c = false) l.
Proof.
  apply (render_pdf_failed_acquisition (str "<p>hello</p>") None
           (Some (str "A4")) None None sample_margins false true
           PrimFloat.one None None true 30000
           (sample_world no_context_engine)).
  - reflexivity.
  - right. left. by eexists.
Defined.

Lemma render_pdf_raises_engine_faults_witness :
  (exists f, PWTimeoutError (str "Timeout 30000ms exceeded.") = exn_of_fault f)
  ∧ is_Exception (PWTimeoutError (str "Timeout 30000ms exceeded.")) = true
  ∧ PWTimeoutError (str "Timeout 30000ms exceeded.") ≠ StopException.
Proof.
  apply (render_pdf_raises_engine_faults (str "<p>hello</p>") None
           (Some (str "A4")) None None sample_margins false true
           PrimFloat.one None None true 30000 (sample_world slow_engine)
           (PWTimeoutError (str "Timeout 30000ms exceeded."))
           (render_pdf (str "<p>hello</p>") None (Some (str "A4")) None None
              sample_margins false true PrimFloat.one None None true 30000
              (sample_world slow_engine)).2).
  vm_compute. reflexivity.
Defined.

(** ** More on the dictionary and on normalize_paper *)

Lemma lstrip_head s c : head (lstrip s) = Some c -> isspace c = false.
Proof.
  induction s as [|a s IH]; [done|]. simpl.
  destruct (isspace a) eqn:Ha; [done|]. simpl. by intros [= <-].
Qed.

Lemma rstrip_head a s c : head (rstrip (a :: s)) = Some c -> c = a.
Proof.
  simpl. destruct (rstrip s); [destruct (isspace a)|]; simpl; congruence.
Qed.

Lemma rstrip_last s c : last (rstrip s) = Some c -> isspace c = false.
Proof.
  induction s as [|a s IH]; [done|]. simpl.
  destruct (rstrip s) as [|r rs] eqn:Hr.
  - destruct (isspace a) eqn:Ha; [done|]. simpl. by intros [= <-].
  - intros Hlast. apply IH. exact Hlast.
Qed.

Lemma lstrip_id s :
  (forall c, head s = Some c -> isspace c = false) -> lstrip s = s.
Proof. destruct s as [|a s]; [done|]. intros H. simpl. by rewrite (H a). Qed.

Lemma rstrip_id s :
  (forall c, last s = Some c -> isspace c = false) -> rstrip s = s.
Proof.
  induction s as [|a s IH]; [done|]. intros H. simpl.
  destruct s as [|b s].
  - simpl. by rewrite (H a).
  - rewrite IH; [done|]. intros c Hc. apply H. exact Hc.
Qed.

Lemma or_none_strip_trimmed s : trimmed (or_none (strip s)).
Proof.
  destruct (strip s) as [|a t] eqn:Hs; [done|]. simpl.
  split_and!; [done | |].
  - intros c [= <-]. unfold strip in Hs.
    destruct (lstrip s) as [|b u] eqn:Hl; [done|].
    assert (a = b) as -> by (apply (rstrip_head b u); by rewrite Hs).
    apply (lstrip_head s). by rewrite Hl.
  - intros c Hc. apply (rstrip_last (lstrip s)). unfold strip in Hs.
    by rewrite Hs.
Qed.

Lemma or_none_strip_of_trimmed o :
  trimmed o -> or_none (strip (default [] o)) = o.
Proof.
  destruct o as [s|]; [|done]. simpl. intros (Hne & Hhead & Hlast).
  unfold strip. rewrite (lstrip_id s Hhead), (rstrip_id s Hlast).
  by destruct s.
Qed.

(** X6. With "Custom", [normalize_paper] returns no format, and each
    dimension it returns is either absent or a non-empty string without
    white space at either end; normalising its own result again changes
    nothing. *)
Theorem normalize_paper_custom_is_trimmed (custom_w custom_h : option text) :
  let '(format_name, width, height) :=
    normalize_paper (str "Custom") custom_w custom_h in
  format_name = None ∧ trimmed width ∧ trimmed height
  ∧ normalize_paper (str "Custom") width height = (None, width, height).
Proof.
  unfold normalize_paper. rewrite decide_True by done. cbv zeta.
  pose proof (or_none_strip_trimmed (default [] custom_w)) as Hw.
  pose proof (or_none_strip_trimmed (default [] custom_h)) as Hh.
  split_and!; [done..|].
  by rewrite (or_none_strip_of_trimmed _ Hw), (or_none_strip_of_trimmed _ Hh).
Qed.

Section PdfArgsExtra.

Variables (margins : gmap string text) (landscape print_background : bool)
          (scale : PrimFloat.float) (prefer_css_page_size : bool)
          (format_name width height header_template footer_template : option text).

Local Abbreviation args :=
  (pdf_args format_name width height margins landscape print_background scale
     header_template footer_template prefer_css_page_size).

(** X7. Whatever the optional values, the dictionary holds the six fixed
    keywords with the values passed in, unchanged, and it holds no keyword
    outside the eleven that [page.pdf] is ever given. *)
Theorem pdf_args_fixed_keywords :
  args !! "print_background" = Some (PBool print_background)
  ∧ args !! "landscape" = Some (PBool landscape)
  ∧ args !! "scale" = Some (PFloat scale)
  ∧ args !! "margin" = Some (PDict margins)
  ∧ args !! "prefer_css_page_size" = Some (PBool prefer_css_page_size)
  ∧ forall k, is_Some (args !! k) -> k ∈ pdf_keywords.
Proof.
  split_and!.
  1-5: unfold pdf_args; destruct (truthy format_name);
       rewrite !lookup_set_if; simpl;
       destruct (truthy header_template), (truthy footer_template),
                (truthy width), (truthy height); simpl;
       by simplify_map_eq.
  intros k [v Hv]. unfold pdf_args in Hv.
  assert (Hbase : forall k' : string,
    is_Some ((<["prefer_css_page_size" := PBool prefer_css_page_size]>
       (<["display_header_footer" :=
            PBool (truthy header_template || truthy footer_template)]>
       (<["margin" := PDict margins]>
       (<["scale" := PFloat scale]>
       (<["landscape" := PBool landscape]>
       (<["print_background" := PBool print_background]>
          (∅ : gmap string pyval))))))) !! k') -> k' ∈ pdf_keywords).
  { intros k'. rewrite !lookup_insert_is_Some', lookup_empty.
    unfold pdf_keywords. intros H.
    repeat (destruct H as [<-|H];
      [repeat first [apply list_elem_of_here | apply list_elem_of_further]|]).
    by destruct H. }
  destruct (truthy format_name); rewrite !lookup_set_if in Hv;
    repeat match type of Hv with
           | context [bool_decide (?key = k)] =>
             destruct (decide (key = k)) as [<-|?];
             [unfold pdf_keywords;
              repeat first [apply list_elem_of_here | apply list_elem_of_further]|];
             rewrite (bool_decide_eq_false_2 (key = k)) in Hv by done; simpl in Hv
           end;
    apply Hbase; by eexists.
Qed.

(** X8. A non-empty format name wins over explicit dimensions: the
    dictionary then holds the format and neither width nor height, even if
    both were passed. An absent or empty format name counts as none: the
    dictionary holds no format, and each non-empty dimension as passed. *)
Theorem format_takes_precedence :
  (truthy format_name = true ->
   args !! "format" = PStr <$> format_name
   ∧ args !! "width" = None ∧ args !! "height" = None)
  ∧ (format_name = None ∨ format_name = Some [] ->
     args !! "format" = None
     ∧ args !! "width" = (if truthy width then PStr <$> width else None)
     ∧ args !! "height" = (if truthy height then PStr <$> height else None)).
Proof.
  destruct (pdf_args_geometry margins landscape print_background scale
              prefer_css_page_size format_name width height header_template
              footer_template) as (Hf & Hw & Hh).
  split.
  - intros Ht. rewrite Ht in Hf, Hw, Hh. done.
  - intros [-> | ->]; done.
Qed.

End PdfArgsExtra.

Lemma normalize_paper_custom_is_trimmed_witness :
  normalize_paper (str "Custom") (Some (str "210mm")) None
  = (None, Some (str "210mm"), None).
Proof.
  pose proof (normalize_paper_custom_is_trimmed (Some (str " 210mm ")) (Some (str " ")))
    as H.
  change (normalize_paper (str "Custom") (Some (str " 210mm ")) (Some (str " ")))
    with (@None text, Some (str "210mm"), @None text) in H.
  cbv beta iota zeta in H. by destruct H as (_ & _ & _ & H).
Defined.

Lemma format_takes_precedence_witness :
  let args := pdf_args (Some (str "Letter")) (Some (str "8.5in"))
                (Some (str "11in")) sample_margins false true PrimFloat.one
                None None true in
  args !! "format" = Some (PStr (str "Letter"))
  ∧ args !! "width" = None ∧ args !! "height" = None.
Proof.
  destruct (format_takes_precedence sample_margins false true PrimFloat.one
              true (Some (str "Letter")) (Some (str "8.5in"))
              (Some (str "11in")) None None) as [H _].
  apply H. reflexivity.
Defined.

(** ** More on the archive's text *)

Section ArchiveText.
Import Codec.

Lemma universal_newlines_facts n : forall t,
  (length t <= n)%nat ->
  (13 ∉ universal_newlines t)
  ∧ (length (universal_newlines t) <= length t)%nat.
Proof.
  induction n as [|n IH]; intros t Hlen.
  - destruct t; simpl in *; [|lia]. split; [apply not_elem_of_nil | lia].
  - destruct t as [|c t]; [split; [apply not_elem_of_nil | simpl; lia]|].
    simpl in Hlen. simpl.
    destruct (N.eqb_spec c 13) as [->|Hc].
    + destruct t as [|c' t].
      * split; [|simpl; lia]. apply not_elem_of_cons. split; [done|].
        apply not_elem_of_nil.
      * simpl in Hlen.
        destruct (c' =? 10);
          [destruct (IH t) as [Hcr Hl]; [lia|]
          |destruct (IH (c' :: t)) as [Hcr Hl]; [simpl; lia|]];
          (split; [apply not_elem_of_cons; by split | simpl in *; lia]).
    + destruct (IH t) as [Hcr Hl]; [lia|].
      split; [apply not_elem_of_cons; by split | simpl; lia].
Qed.

(** One step of case analysis along the decoder's tests. *)
Ltac decoder_step :=
  match goal with
  | |- context [if ?b then _ else _] => destruct b eqn:?
  | |- context [match ?l with [] => _ | _ :: _ => _ end] => destruct l
  end.

Lemma utf8_decode_ignore_length n : forall s t,
  (length s <= n)%nat ->
  utf8_decode ignore s = Some t -> (length t <= length s)%nat.
Proof.
  induction n as [|n IH]; intros s t Hlen.
  - destruct s; simpl in *; [|lia]. by intros [= <-].
  - destruct s as [|c1 s1]; [by intros [= <-]|]. simpl in Hlen.
    assert (Hrec : forall s' u, (length s' <= length s1)%nat ->
              utf8_decode ignore s' = Some u -> (length u <= length s')%nat).
    { intros s' u Hs'. apply IH. lia. }
    assert (Hcons : forall s' u cp, (length s' <= length s1)%nat ->
              cons cp <$> utf8_decode ignore s' = Some u ->
              (length u <= S (length s'))%nat).
    { intros s' u cp Hs' Hu. apply fmap_Some in Hu as (u' & Hu' & ->).
      apply Hrec in Hu'; [simpl; lia | done]. }
    cbn [utf8_decode on_error].
    repeat decoder_step; cbn [on_error]; intros Hu;
      first [ injection Hu as <-; simpl; lia
            | apply Hcons in Hu; simpl in *; lia
            | apply Hrec in Hu; simpl in *; lia ].
Qed.

End ArchiveText.

Lemma read_text_same_world (entry : path) (w : world) :
  (read_text entry w).2 = w.
Proof.
  unfold read_text, decode_utf8. run.
  destruct (disk w !! entry) as [[data|]|]; [|done..].
  by destruct (Codec.utf8_decode Codec.ignore data).
Qed.

(** X9. Reading the selected entry never fails on a file: whatever its
    bytes, the text comes back, it holds no carriage return, and it has at
    most as many characters as the file has bytes. On a directory or on a
    path that is not there it raises an OS error. Storage is untouched in
    all cases. *)
Theorem read_text_outcome (entry : path) (w : world) :
  match disk w !! entry with
  | Some (File data) =>
    exists html_text,
      read_text entry w = (Ok html_text, w)
      ∧ (13 ∉ html_text) ∧ (length html_text <= length data)%nat
  | _ => read_text entry w = (Raise (OSError entry), w)
  end.
Proof.
  unfold read_text, decode_utf8. run.
  destruct (disk w !! entry) as [[data|]|]; [|done..].
  destruct (utf8_decode_ignore_total data) as [t Ht]. rewrite Ht.
  exists (Codec.universal_newlines t). split; [done|].
  destruct (universal_newlines_facts (length t) t) as [Hcr Hl]; [done|].
  split; [done|].
  pose proof (utf8_decode_ignore_length (length data) data t) as Hd.
  specialize (Hd ltac:(done) Ht). lia.
Qed.

(** ** Frames of the storage statements *)

Lemma bind_inv_ok {A B} (m : M A) (k : A -> M B) w b w' :
  (m ≫= k) w = (Ok b, w') ->
  exists a w1, m w = (Ok a, w1) ∧ k a w1 = (Ok b, w').
Proof.
  unfold mbind, M_bind. destruct (m w) as [[a|e] w1]; [|done]. eauto.
Qed.

Lemma fresh_name_shape d prefix suffix names p rest :
  fresh_name d prefix suffix names = Some (p, rest) -> length p = 2%nat.
Proof.
  induction names as [|n names IH]; [done|]. simpl.
  case_bool_decide; [done|]. by intros [= <- <-].
Qed.

Lemma mktemp_shape kind prefix suffix w p w' :
  mktemp kind prefix suffix w = (Ok p, w') -> length p = 2%nat.
Proof.
  unfold mktemp.
  destruct (fresh_name _ _ _ _) as [[q rest]|] eqn:Hfresh; [|done].
  intros [= <- <-]. by eapply fresh_name_shape.
Qed.

(** A temporary path that is in use lies outside a temporary directory
    made later. *)
Lemma tmp_paths_apart kind prefix suffix w p dir w' :
  length p = 2%nat -> is_Some (disk w !! p) ->
  mktemp kind prefix suffix w = (Ok dir, w') ->
  forall rel, p ≠ dir ++ rel.
Proof.
  intros Hp Hthere Htmp rel ->.
  pose proof (mktemp_shape _ _ _ _ _ _ Htmp) as Hdir.
  apply mktemp_ok in Htmp as (Hfresh & _).
  rewrite length_app, Hdir in Hp. destruct rel; [|simpl in Hp; lia].
  rewrite (right_id_L [] (++)) in Hthere. rewrite Hfresh in Hthere.
  by destruct Hthere.
Qed.

Lemma only_storage_set_disk d w : only_storage w (set_disk d w).
Proof. done. Qed.

Lemma preserves_storage_put p n : preserves only_storage (put p n).
Proof. by intros w. Qed.

Lemma preserves_storage_mktemp kind prefix suffix :
  preserves only_storage (mktemp kind prefix suffix).
Proof.
  intros w. unfold mktemp.
  by destruct (fresh_name _ _ _ _) as [[q rest]|].
Qed.

Lemma preserves_storage_write_bytes p data :
  preserves only_storage (write_bytes p data).
Proof.
  intros w. unfold write_bytes. run.
  destruct (disk w !! p) as [[old|]|]; [| done |];
    by destruct (storage_fault w p data) as [[|written]|].
Qed.

Lemma preserves_storage_os_remove p : preserves only_storage (os_remove p).
Proof.
  intros w. unfold os_remove. run. by destruct (disk w !! p) as [[old|]|].
Qed.

Lemma preserves_storage_read_text entry : preserves only_storage (read_text entry).
Proof.
  intros w. by rewrite read_text_same_world.
Qed.

#[local] Hint Resolve only_storage_preorder preserves_storage_put
  preserves_storage_mktemp preserves_storage_write_bytes
  preserves_storage_os_remove preserves_storage_read_text : frame.

Lemma preserves_storage_makedirs rel : forall base,
  preserves only_storage (makedirs base rel).
Proof.
  induction rel as [|c rel IH]; intros base; simpl; [auto with frame|].
  apply preserves_bind; [apply _ | auto with frame|].
  intros [[data|]|]; auto with frame.
Qed.

Lemma preserves_storage_extract_member extract_dir m :
  preserves only_storage (extract_member extract_dir m).
Proof.
  unfold extract_member.
  apply preserves_bind; [apply _ | apply preserves_storage_makedirs|]. intros _.
  destruct (is_dir m); [|auto with frame].
  apply preserves_bind; [apply _ | auto with frame|].
  intros [[data|]|]; auto with frame.
Qed.

#[local] Hint Resolve preserves_storage_makedirs
  preserves_storage_extract_member : frame.

(** Files that are there stay *)

Lemma keeps_file_only_calls p w w' : only_calls w w' -> keeps_file p w w'.
Proof. by intros [l ->]. Qed.

Lemma keeps_file_same w w' p :
  cleanup_paths w' = cleanup_paths w -> disk w' = disk w -> keeps_file p w w'.
Proof. intros Hc Hd. split; [done|]. by rewrite Hd. Qed.

Lemma keeps_file_put_other p q n w :
  p ≠ q -> keeps_file p w (set_disk (<[q := n]> (disk w)) w).
Proof.
  intros Hne. split; [done|]. intros data Hdata. simpl.
  by rewrite lookup_insert_ne.
Qed.

Lemma keeps_file_put_fresh p q n w :
  disk w !! q = None -> keeps_file p w (set_disk (<[q := n]> (disk w)) w).
Proof.
  intros Hq. split; [done|]. intros data Hdata. simpl.
  rewrite lookup_insert_ne; [done|]. congruence.
Qed.

Lemma preserves_file_show p e : preserves (keeps_file p) (show e).
Proof. by intros w. Qed.

Lemma preserves_file_invoke p c : preserves (keeps_file p) (invoke c).
Proof. intros w. apply keeps_file_only_calls, preserves_invoke. Qed.

Lemma preserves_file_mktemp p kind prefix suffix :
  preserves (keeps_file p) (mktemp kind prefix suffix).
Proof.
  intros w. destruct (mktemp kind prefix suffix w) as [[q|e] w'] eqn:Hrun.
  - apply mktemp_ok in Hrun as (Hfresh & Hdisk & _ & _ & _ & Hc).
    split; [done|]. intros data Hdata. simpl.
    rewrite Hdisk, lookup_insert_ne; [done|]. congruence.
  - unfold mktemp in Hrun.
    destruct (fresh_name _ _ _ _) as [[q rest]|]; [done|].
    by injection Hrun as _ <-.
Qed.

Lemma preserves_file_read_text p entry : preserves (keeps_file p) (read_text entry).
Proof.
  intros w. by rewrite read_text_same_world.
Qed.

Lemma preserves_file_makedirs p rel : forall base,
  preserves (keeps_file p) (makedirs base rel).
Proof.
  induction rel as [|c rel IH]; intros base w; simpl; [done|]. run.
  destruct (disk w !! (base ++ [c])) as [[data|]|] eqn:Hn; simpl.
  - done.
  - apply IH.
  - etrans; [|apply IH]. by apply keeps_file_put_fresh.
Qed.

Lemma preserves_file_write_bytes p q data :
  p ≠ q -> preserves (keeps_file p) (write_bytes q data).
Proof.
  intros Hne w. unfold write_bytes. run.
  destruct (disk w !! q) as [[old|]|]; [| done |];
    destruct (storage_fault w q data) as [[|written]|]; simpl;
    first [done | by apply keeps_file_put_other].
Qed.

Lemma preserves_file_extract_member p extract_dir m :
  (forall rel, p ≠ extract_dir ++ rel) ->
  preserves (keeps_file p) (extract_member extract_dir m).
Proof.
  intros Hout w. unfold extract_member. run.
  pose proof (preserves_file_makedirs p (parent (filename m)) extract_dir w)
    as Hdirs.
  destruct (makedirs extract_dir (parent (filename m)) w) as [[[]|e] w1];
    [|done].
  simpl in Hdirs. etrans; [exact Hdirs|].
  destruct (is_dir m); [|by apply preserves_file_write_bytes].
  destruct (disk w1 !! (extract_dir ++ filename m)) as [[data|]|];
    simpl; first [done | by apply keeps_file_put_other].
Qed.

#[local] Hint Resolve keeps_file_preorder preserves_file_show
  preserves_file_invoke preserves_file_mktemp preserves_file_read_text
  preserves_file_makedirs : frame.

Lemma preserves_file_render_pdf p html base_url format_name width height
    margins landscape print_background scale header_template footer_template
    prefer_css_page_size wait_timeout_ms :
  preserves (keeps_file p)
    (render_pdf html base_url format_name width height margins landscape
       print_background scale header_template footer_template
       prefer_css_page_size wait_timeout_ms).
Proof.
  intros w. apply keeps_file_only_calls, render_pdf_preserves_only_calls.
Qed.

Section ResolverFrames.

Variable zip_members : bytes -> option (list zip_member).
Variable walk : gmap path node -> path -> list path.

Hypothesis walk_spec : forall d root p,
  p ∈ walk d root <-> is_Some (d !! p) ∧ below root p.

Lemma preserves_storage_ZipFile zip_path :
  preserves only_storage (ZipFile zip_members zip_path).
Proof.
  unfold ZipFile. apply preserves_bind; [apply _ | auto with frame|].
  intros [[data|]|]; [|auto with frame..].
  destruct (zip_members data); auto with frame.
Qed.

Lemma preserves_file_ZipFile p zip_path :
  preserves (keeps_file p) (ZipFile zip_members zip_path).
Proof.
  unfold ZipFile. apply preserves_bind; [apply _ | auto with frame|].
  intros [[data|]|]; [|auto with frame..].
  destruct (zip_members data); auto with frame.
Qed.

Lemma preserves_storage_find_html_in_zip zip_path :
  preserves only_storage (find_html_in_zip zip_members walk zip_path).
Proof.
  unfold find_html_in_zip, mkdtemp, extractall, path_exists, rglob.
  apply preserves_bind; [apply _ | auto with frame|]. intros extract_dir.
  apply preserves_bind; [apply _ | apply preserves_storage_ZipFile|]. intros zf.
  apply preserves_bind; [apply _ | auto with frame|]. intros _.
  apply preserves_bind; [apply _ | auto with frame|].
  intros []; auto 10 with frame.
Qed.

(** What follows the making of the extraction directory keeps a file
    that lies outside of it. *)
Lemma preserves_file_after_mkdtemp p zip_path extract_dir :
  (forall rel, p ≠ extract_dir ++ rel) ->
  preserves (keeps_file p)
    (zf ← ZipFile zip_members zip_path;
     extractall zf extract_dir ;;
     idx_exists ← path_exists (extract_dir ++ ["index.html"]);
     if (idx_exists : bool) then mret (Some (extract_dir ++ ["index.html"]))
     else
       html ← rglob walk extract_dir "*.html";
       htm ← rglob walk extract_dir "*.htm";
       mret (head (html ++ htm))).
Proof.
  intros Hout. unfold extractall, path_exists, rglob.
  apply preserves_bind; [apply _ | apply preserves_file_ZipFile|]. intros zf.
  apply preserves_bind; [apply _ | |].
  { apply preserves_for_each; [apply _|].
    intros m. by apply preserves_file_extract_member. }
  intros _. apply preserves_bind; [apply _ | auto with frame|].
  intros []; auto 10 with frame.
Qed.

(** X10. [find_html_in_zip] works on storage only: it makes no call to
    the browser, shows nothing to the user and leaves the handler's
    cleanup list as it is, whether it returns or raises. *)
Theorem find_html_in_zip_works_on_storage_only (zip_path : path) (w : world) :
  let w' := (find_html_in_zip zip_members walk zip_path w).2 in
  calls w' = calls w ∧ ui w' = ui w ∧ cleanup_paths w' = cleanup_paths w
  ∧ chromium w' = chromium w.
Proof.
  destruct (preserves_storage_find_html_in_zip zip_path w)
    as (Hb & Hc & Hu & Hp).
  by split_and!.
Qed.

(** X11. Whenever [find_html_in_zip] returns an entry, that entry is on
    storage and lies below the extraction directory made for this call:
    the handler's test [entry.exists()] cannot fail on it. *)
Theorem find_html_in_zip_returns_existing zip_path w entry w' :
  find_html_in_zip zip_members walk zip_path w = (Ok (Some entry), w') ->
  is_Some (disk w' !! entry)
  ∧ exists extract_dir w0,
      mkdtemp "html2pdf_zip_" w = (Ok extract_dir, w0)
      ∧ below extract_dir entry.
Proof.
  unfold find_html_in_zip. intros Hrun.
  apply bind_inv_ok in Hrun as (extract_dir & w0 & Htmp & Hrun).
  apply bind_inv_ok in Hrun as (zf & w0' & Hopen & Hrun).
  apply bind_inv_ok in Hrun as ([] & w1 & Hextract & Hrun).
  unfold path_exists, rglob in Hrun. run.
  assert (Hgoal : is_Some (disk w' !! entry) ∧ below extract_dir entry).
  { case_bool_decide as Hidx; simpl in Hrun.
    - injection Hrun as <- <-. split; [done|].
      exists ["index.html"]. by split.
    - injection Hrun as Hhead <-.
      destruct (first_page_html_like walk walk_spec (disk w1) extract_dir entry)
        as (Hthere & Hbelow & _); [exact Hhead | done]. }
  destruct Hgoal as [Hthere Hbelow]. split; [done|]. eauto.
Qed.

End ResolverFrames.

(** ** More on the handler *)

Lemma cleanup_nothing w :
  cleanup_paths w = [] ->
  (ps ← gets cleanup_paths; for_each ps (fun p => suppress (os_remove p))) w
  = (Ok tt, w).
Proof. intros Hc. unfold gets. run. by rewrite Hc. Qed.

Lemma cleanup_one_file w p data :
  cleanup_paths w = [p] -> disk w !! p = Some (File data) ->
  (ps ← gets cleanup_paths; for_each ps (fun p => suppress (os_remove p))) w
  = (Ok tt, set_disk (delete p (disk w)) w).
Proof.
  intros Hc Hp. unfold gets. run. rewrite Hc. simpl.
  unfold suppress, try_except, os_remove. run. by rewrite Hp.
Qed.

Section HandlerExtra.

Variable zip_members : bytes -> option (list zip_member).
Variable walk : gmap path node -> path -> list path.

(** The state of a ZIP conversion once both temporary paths are made. *)
Lemma staging_facts up w tmp_zip wa extract_dir w0 :
  mkstemp "html2pdf_" ".zip" w = (Ok tmp_zip, wa) ->
  mkdtemp "html2pdf_zip_" (staged up tmp_zip wa) = (Ok extract_dir, w0) ->
  disk w0 !! tmp_zip = Some (File (upload_data up))
  ∧ disk w0 !! extract_dir = Some Dir
  ∧ cleanup_paths w0 = cleanup_paths w ++ [tmp_zip]
  ∧ calls w0 = calls w ∧ ui w0 = ui w
  ∧ forall rel, tmp_zip ≠ extract_dir ++ rel.
Proof.
  intros Hstage Htmp.
  pose proof (mktemp_shape _ _ _ _ _ _ Hstage) as Hshape.
  assert (Hout : forall rel, tmp_zip ≠ extract_dir ++ rel).
  { eapply tmp_paths_apart; [exact Hshape | | exact Htmp].
    simpl. rewrite lookup_insert_eq. by eexists. }
  apply mktemp_ok in Hstage as (_ & _ & _ & Hca & Hua & Hpa).
  apply mktemp_ok in Htmp as (_ & Hdisk & _ & Hc0 & Hu0 & Hp0).
  split_and!; [| | | | |done].
  - rewrite Hdisk, lookup_insert_ne.
    + simpl. apply lookup_insert_eq.
    + intros ->. apply (Hout []). by rewrite (right_id_L [] (++)).
  - rewrite Hdisk. apply lookup_insert_eq.
  - rewrite Hp0. simpl. by rewrite Hpa.
  - by rewrite Hc0.
  - by rewrite Hu0.
Qed.

(** The same once the archive is extracted. *)
Lemma extraction_facts up w tmp_zip wa extract_dir w0 zf w1 :
  mkstemp "html2pdf_" ".zip" w = (Ok tmp_zip, wa) ->
  mkdtemp "html2pdf_zip_" (staged up tmp_zip wa) = (Ok extract_dir, w0) ->
  extractall zf extract_dir w0 = (Ok tt, w1) ->
  disk w1 !! tmp_zip = Some (File (upload_data up))
  ∧ disk w1 !! extract_dir = Some Dir
  ∧ cleanup_paths w1 = cleanup_paths w ++ [tmp_zip]
  ∧ calls w1 = calls w ∧ ui w1 = ui w.
Proof.
  intros Hstage Htmp Hextract.
  destruct (staging_facts _ _ _ _ _ _ Hstage Htmp)
    as (Hzip & Hdir & Hp & Hc & Hu & Hout).
  assert (Hfile : keeps_file tmp_zip w0 w1).
  { change w1 with (Ok tt, w1).2. rewrite <- Hextract. unfold extractall.
    apply preserves_for_each; [apply _|].
    intros m. by apply preserves_file_extract_member. }
  assert (Hstore : only_storage w0 w1).
  { change w1 with (Ok tt, w1).2. rewrite <- Hextract. unfold extractall.
    apply preserves_for_each; [apply _|].
    intros m. apply preserves_storage_extract_member. }
  assert (Hdirs : keeps_dirs w0 w1).
  { change w1 with (Ok tt, w1).2. rewrite <- Hextract. unfold extractall.
    apply dir_stable_for_each. intros m. apply dir_stable_extract_member. }
  destruct Hfile as [Hp1 Hf1]. destruct Hstore as (_ & Hc1 & Hu1 & _).
  split_and!; [by apply Hf1 | by apply Hdirs | congruence..].
Qed.

(** How the handler ends when the ZIP branch raises. *)
Lemma generate_zip_raise f up w e w2 p data :
  uploaded f = Some up ->
  lower (suffix (Path (upload_name up))) = ".zip" ->
  resolve_zip zip_members walk up (set_cleanup_paths [] w) = (Raise e, w2) ->
  cleanup_paths w2 = [p] -> disk w2 !! p = Some (File data) ->
  generate zip_members walk f w
  = (Raise e, set_disk (delete p (disk w2)) w2).
Proof.
  intros Hup Hzip Hres Hc Hp. unfold generate. rewrite Hup, Hzip.
  destruct (decide (".zip" = ".zip")) as [_|Hne]; [|done].
  change ((modify (set_cleanup_paths []) ;; ?m) w)
    with (m (set_cleanup_paths [] w)).
  unfold try_finally. rewrite (bind_raise _ _ _ _ _ Hres).
  by rewrite (cleanup_one_file _ _ _ Hc Hp).
Qed.

End HandlerExtra.

Lemma find_html_in_zip_returns_existing_witness :
  is_Some (disk (extracted_world site_members)
             !! (sample_extract_dir ++ ["index.html"]))
  ∧ exists extract_dir w0,
      mkdtemp "html2pdf_zip_" staged_world = (Ok extract_dir, w0)
      ∧ below extract_dir (sample_extract_dir ++ ["index.html"]).
Proof.
  apply (find_html_in_zip_returns_existing site_zip scan scan_spec
           sample_tmp_zip staged_world (sample_extract_dir ++ ["index.html"])
           (extracted_world site_members)).
  vm_compute. reflexivity.
Defined.

Section ZipConversions.

Variable zip_members : bytes -> option (list zip_member).
Variable walk : gmap path node -> path -> list path.

#[local] Hint Resolve preserves_file_render_pdf : frame.

(** X12. Once the copy of the uploaded archive is written, it is gone
    from storage when the handler is done, on every exit path that
    follows: a failed extraction, no page found, an entry that cannot be
    read, a render that times out or fails, or success. *)
Theorem temp_archive_is_removed f up w tmp_zip wa :
  uploaded f = Some up ->
  lower (suffix (Path (upload_name up))) = ".zip" ->
  mkstemp "html2pdf_" ".zip" (set_cleanup_paths [] w) = (Ok tmp_zip, wa) ->
  storage_fault wa tmp_zip (upload_data up) = None ->
  disk (generate zip_members walk f w).2 !! tmp_zip = None.
Proof.
  intros Hup Hzip Hstage Hwrite. unfold generate. rewrite Hup, Hzip.
  destruct (decide (".zip" = ".zip")) as [_|Hne]; [|done].
  change ((modify (set_cleanup_paths []) ;; ?m) w)
    with (m (set_cleanup_paths [] w)).
  unfold try_finally.
  match goal with
  | |- context [match ?body (set_cleanup_paths [] w) with (r, w') => _ end] =>
    assert (Hkeep : keeps_file tmp_zip (staged up tmp_zip wa)
                      (body (set_cleanup_paths [] w)).2);
    [|destruct (body (set_cleanup_paths [] w)) as [r w2]]
  end.
  - apply preserves_bind_from; [apply _ | |].
    + rewrite (resolve_zip_run _ _ _ _ _ _ Hstage Hwrite).
      apply preserves_bind_from; [apply _ | |].
      * unfold find_html_in_zip.
        pose proof (preserves_file_mktemp tmp_zip Dir "html2pdf_zip_" ""
                      (staged up tmp_zip wa)) as Hmk.
        fold (mkdtemp "html2pdf_zip_") in Hmk.
        destruct (mkdtemp "html2pdf_zip_" (staged up tmp_zip wa))
          as [[extract_dir|e] w0] eqn:Htmp; simpl in Hmk.
        -- rewrite (bind_ok _ _ _ _ _ Htmp).
           etrans; [exact Hmk|]. apply preserves_file_after_mkdtemp.
           by destruct (staging_facts _ _ _ _ _ _ Hstage Htmp)
             as (_ & _ & _ & _ & _ & Hout).
        -- by rewrite (bind_raise _ _ _ _ _ Htmp).
      * intros [entry|]; [|auto with frame].
        unfold path_exists. apply preserves_bind; [apply _ | auto with frame|].
        intros []; simpl; auto with frame.
    + intros [html_text base_url].
      destruct (normalize_paper _ _ _) as [[format_name width] height].
      apply preserves_bind; [apply _ | |].
      * apply preserves_try_except; [apply _ | apply preserves_file_render_pdf|].
        intros e h. destruct (is_PWTimeoutError e), (is_Exception e);
          intros [= <-]; auto with frame.
      * intros pdf_bytes. auto 10 with frame.
  - simpl in Hkeep. destruct Hkeep as [Hc Hf].
    apply mktemp_ok in Hstage as (_ & _ & _ & _ & _ & Hpa).
    rewrite (cleanup_one_file w2 tmp_zip (upload_data up)).
    + simpl. apply lookup_delete_eq.
    + rewrite Hc. simpl. by rewrite Hpa.
    + apply Hf. simpl. apply lookup_insert_eq.
Qed.

(** X23. When the writing of the copy fails, the handler raises that OS
    error and lets it escape: nothing is shown to the user and the browser
    is never called. The file that [mkstemp] made is still on storage
    when the handler is done, with the bytes that got through: its path
    was not yet on the cleanup list, which is empty. *)
Theorem failed_copy_is_left_behind f up w tmp_zip wa fl :
  uploaded f = Some up ->
  lower (suffix (Path (upload_name up))) = ".zip" ->
  mkstemp "html2pdf_" ".zip" (set_cleanup_paths [] w) = (Ok tmp_zip, wa) ->
  storage_fault wa tmp_zip (upload_data up) = Some fl ->
  let w' := (generate zip_members walk f w).2 in
  (generate zip_members walk f w).1 = Raise (OSError tmp_zip)
  ∧ ui w' = ui w ∧ calls w' = calls w
  ∧ cleanup_paths w' = []
  ∧ disk w' !! tmp_zip = Some (File (left_by fl [] (upload_data up))).
Proof.
  intros Hup Hzip Hstage Hfault.
  pose proof Hstage as (_ & Hdisk & _ & Hc & Hu & Hp)%mktemp_ok.
  destruct (write_bytes_fault tmp_zip (upload_data up) wa fl [])
    as (w2 & Hwrite & Hdisk2 & _ & _ & Hc2 & Hu2 & Hp2); [|done|].
  { rewrite Hdisk. apply lookup_insert_eq. }
  assert (Hres : resolve_zip zip_members walk up (set_cleanup_paths [] w)
                 = (Raise (OSError tmp_zip), w2)).
  { unfold resolve_zip. rewrite (bind_ok _ _ _ _ _ Hstage).
    by rewrite (bind_raise _ _ _ _ _ Hwrite). }
  unfold generate. rewrite Hup, Hzip.
  destruct (decide (".zip" = ".zip")) as [_|Hne]; [|done].
  change ((modify (set_cleanup_paths []) ;; ?m) w)
    with (m (set_cleanup_paths [] w)).
  unfold try_finally. rewrite (bind_raise _ _ _ _ _ Hres).
  rewrite cleanup_nothing by (by rewrite Hp2, Hp).
  cbn [fst snd]. rewrite Hu2, Hu, Hc2, Hc, Hp2, Hp, Hdisk2.
  split_and!; [done..|]. apply lookup_insert_eq.
Qed.

(** X13. When the copy of the upload is written and the uploaded bytes
    are no ZIP archive, the handler raises BadZipFile and lets it escape:
    nothing is shown to the user and the browser is never called. The
    temporary copy is removed; the empty extraction directory stays
    behind. *)
Theorem corrupt_archive_escapes f up w tmp_zip wa extract_dir w0 :
  uploaded f = Some up ->
  lower (suffix (Path (upload_name up))) = ".zip" ->
  mkstemp "html2pdf_" ".zip" (set_cleanup_paths [] w) = (Ok tmp_zip, wa) ->
  storage_fault wa tmp_zip (upload_data up) = None ->
  mkdtemp "html2pdf_zip_" (staged up tmp_zip wa) = (Ok extract_dir, w0) ->
  zip_members (upload_data up) = None ->
  let w' := (generate zip_members walk f w).2 in
  (generate zip_members walk f w).1 = Raise BadZipFile
  ∧ ui w' = ui w ∧ calls w' = calls w
  ∧ disk w' !! tmp_zip = None ∧ disk w' !! extract_dir = Some Dir.
Proof.
  intros Hup Hzip Hstage Hwrite Htmp Hbad.
  destruct (staging_facts _ _ _ _ _ _ Hstage Htmp)
    as (Hfile & Hdir & Hp & Hc & Hu & Hout).
  assert (Hres : resolve_zip zip_members walk up (set_cleanup_paths [] w)
                 = (Raise BadZipFile, w0)).
  { rewrite (resolve_zip_run _ _ _ _ _ _ Hstage Hwrite).
    assert (Hopen : ZipFile zip_members tmp_zip w0 = (Raise BadZipFile, w0)).
    { unfold ZipFile. run. by rewrite Hfile, Hbad. }
    assert (Hfind : find_html_in_zip zip_members walk tmp_zip
                      (staged up tmp_zip wa) = (Raise BadZipFile, w0)).
    { unfold find_html_in_zip. rewrite (bind_ok _ _ _ _ _ Htmp).
      by rewrite (bind_raise _ _ _ _ _ Hopen). }
    by rewrite (bind_raise _ _ _ _ _ Hfind). }
  rewrite (generate_zip_raise zip_members walk f up w BadZipFile w0 tmp_zip
             (upload_data up) Hup Hzip Hres); [|done..].
  simpl. split_and!; [done..| apply lookup_delete_eq |].
  rewrite lookup_delete_ne; [done|].
  intros ->. apply (Hout []). by rewrite (right_id_L [] (++)).
Qed.

End ZipConversions.

Lemma temp_archive_is_removed_witness :
  disk (generate site_zip scan (sample_form sample_upload)
          (sample_world quiet_engine)).2 !! sample_tmp_zip = None.
Proof.
  apply (temp_archive_is_removed site_zip scan (sample_form sample_upload)
           sample_upload (sample_world quiet_engine) sample_tmp_zip
           started_uploaded_world).
  - reflexivity.
  - vm_compute. reflexivity.
  - vm_compute. reflexivity.
  - reflexivity.
Defined.

Lemma corrupt_archive_escapes_witness :
  (generate garbage_zip scan (sample_form sample_upload)
     (sample_world quiet_engine)).1 = Raise BadZipFile.
Proof.
  destruct (corrupt_archive_escapes garbage_zip scan
              (sample_form sample_upload) sample_upload
              (sample_world quiet_engine) sample_tmp_zip
              started_uploaded_world sample_extract_dir started_tmpdir_world)
    as (H & _).
  - reflexivity.
  - vm_compute. reflexivity.
  - vm_compute. reflexivity.
  - reflexivity.
  - vm_compute. reflexivity.
  - reflexivity.
  - exact H.
Defined.

Lemma extract_dir_is_never_removed_witness :
  disk (generate site_zip scan (sample_form sample_upload)
          (sample_world quiet_engine)).2 !! sample_extract_dir = Some Dir.
Proof.
  apply (extract_dir_is_never_removed site_zip scan
           (sample_form sample_upload) sample_upload
           (sample_world quiet_engine) sample_tmp_zip started_uploaded_world
           sample_extract_dir started_tmpdir_world).
  - reflexivity.
  - vm_compute. reflexivity.
  - vm_compute. reflexivity.
  - reflexivity.
  - vm_compute. reflexivity.
Defined.

Lemma failed_copy_is_left_behind_witness :
  (generate site_zip scan (sample_form sample_upload) full_storage_world).1
  = Raise (OSError sample_tmp_zip)
  ∧ disk (generate site_zip scan (sample_form sample_upload)
            full_storage_world).2 !! sample_tmp_zip
    = Some (File []).
Proof.
  destruct (failed_copy_is_left_behind site_zip scan
              (sample_form sample_upload) sample_upload full_storage_world
              sample_tmp_zip
              (mkstemp "html2pdf_" ".zip"
                 (set_cleanup_paths [] full_storage_world)).2
              (write_fails 0))
    as (H1 & _ & _ & _ & H2).
  - reflexivity.
  - vm_compute. reflexivity.
  - vm_compute. reflexivity.
  - reflexivity.
  - by split.
Defined.

(** ** Single-file conversions *)

Lemma ui_shown l w : ui (shown l w) = ui w ++ l.
Proof.
  revert w. induction l as [|e l IH]; intros w; simpl.
  - by rewrite (right_id_L [] (++)).
  - rewrite IH. simpl. by rewrite <- (assoc_L (++)).
Qed.

Lemma shown_frame l w :
  disk (shown l w) = disk w ∧ tmp_names (shown l w) = tmp_names w
  ∧ calls (shown l w) = calls w
  ∧ cleanup_paths (shown l w) = cleanup_paths w.
Proof.
  revert w. induction l as [|e l IH]; intros w; simpl; [done|].
  destruct (IH (log_ui e w)) as (-> & -> & -> & ->). done.
Qed.

Lemma handler_render_only_calls f html_text base_url :
  preserves only_calls (handler_render f html_text base_url).
Proof.
  unfold handler_render. destruct (normalize_paper _ _ _) as [[? ?] ?].
  apply render_pdf_preserves_only_calls.
Qed.

Lemma handler_render_raises_only_faults f html_text base_url :
  raises_only is_fault (handler_render f html_text base_url).
Proof.
  unfold handler_render. destruct (normalize_paper _ _ _) as [[? ?] ?].
  apply render_pdf_raises_only_faults.
Qed.

Section SingleFile.

Variable zip_members : bytes -> option (list zip_member).
Variable walk : gmap path node -> path -> list path.

(** The whole run of the handler on an upload that is no ZIP. *)
Lemma generate_single_file_run f up w :
  uploaded f = Some up ->
  lower (suffix (Path (upload_name up))) ≠ ".zip" ->
  let html_text := default (Byte.to_N <$> upload_data up)
                     (Codec.utf8_decode Codec.strict (upload_data up)) in
  let run := handler_render f html_text (or_none (strip (base_url_manual f)))
               (set_cleanup_paths [] w) in
  generate zip_members walk f w
  = match run.1 with
    | Ok pdf_bytes =>
      (Ok tt, shown [st_success; st_html_preview html_text;
                     st_pdf_preview pdf_bytes;
                     st_download_button (download_name up) pdf_bytes] run.2)
    | Raise e =>
      (Raise StopException,
       shown [if is_PWTimeoutError e then st_error timeout_msg
              else st_exception e] run.2)
    end.
Proof.
  intros Hup Hzip html_text run. unfold generate. rewrite Hup.
  destruct (decide (lower (suffix (Path (upload_name up))) = ".zip"));
    [done|].
  change ((modify (set_cleanup_paths []) ;; ?m) w)
    with (m (set_cleanup_paths [] w)).
  unfold try_finally.
  assert (Hres : resolve_single up f (set_cleanup_paths [] w)
    = (Ok (html_text, or_none (strip (base_url_manual f))),
       set_cleanup_paths [] w)).
  { unfold resolve_single. by rewrite (bind_ok _ _ _ _ _ (decode_html_bytes_run _ _)). }
  rewrite (bind_ok _ _ _ _ _ Hres).
  pose proof (handler_render_only_calls f html_text
                (or_none (strip (base_url_manual f))) (set_cleanup_paths [] w))
    as [l Hl].
  pose proof (handler_render_raises_only_faults f html_text
                (or_none (strip (base_url_manual f))) (set_cleanup_paths [] w))
    as Hfault.
  fold run in Hl, Hfault. subst run.
  unfold handler_render in *.
  destruct (normalize_paper _ _ _) as [[format_name width] height].
  unfold mbind at 1. unfold M_bind, try_except.
  destruct (render_pdf _ _ _ _ _ _ _ _ _ _ _ _ _ _) as [[pdf_bytes|e] wr] eqn:Hrun;
    simpl in Hl; subst wr.
  - unfold show, download_name, shown. run. done.
  - destruct (Hfault e _ eq_refl) as [fl ->].
    destruct fl; simpl; unfold show, st_stop, shown; run; done.
Qed.

(** X15. An upload that is no ZIP ends in one of three ways, and in no
    other: the render returned a document, and the user sees the success
    note, the preview of the decoded markup, the preview of the document
    and the download button for it under the upload's stem plus ".pdf";
    the render timed out, and the user sees the timeout message before the
    run stops; the render failed otherwise, and the user sees that
    exception before the run stops. *)
Theorem single_file_conversion_outcome f up w :
  uploaded f = Some up ->
  lower (suffix (Path (upload_name up))) ≠ ".zip" ->
  let html_text := default (Byte.to_N <$> upload_data up)
                     (Codec.utf8_decode Codec.strict (upload_data up)) in
  let run := handler_render f html_text (or_none (strip (base_url_manual f)))
               (set_cleanup_paths [] w) in
  let done_ := generate zip_members walk f w in
  match run.1 with
  | Ok pdf_bytes =>
    done_.1 = Ok tt
    ∧ ui done_.2 = ui w ++ [st_success; st_html_preview html_text;
                            st_pdf_preview pdf_bytes;
                            st_download_button (download_name up) pdf_bytes]
  | Raise (PWTimeoutError msg) =>
    done_.1 = Raise StopException ∧ ui done_.2 = ui w ++ [st_error timeout_msg]
  | Raise e =>
    done_.1 = Raise StopException ∧ ui done_.2 = ui w ++ [st_exception e]
  end.
Proof.
  intros Hup Hzip html_text run done_. subst done_.
  rewrite (generate_single_file_run f up w Hup Hzip). fold html_text. fold run.
  destruct (handler_render_only_calls f html_text
              (or_none (strip (base_url_manual f))) (set_cleanup_paths [] w))
    as [l Hl].
  fold run in Hl.
  destruct (run.1) as [pdf_bytes|e]; simpl fst; simpl snd;
    rewrite ?Hl.
  - split; [done|]. simpl. by rewrite <- !(assoc_L (++)).
  - by destruct e.
Qed.

(** X16. An upload that is no ZIP leaves storage alone, on every exit
    path: no file or directory is made, changed or removed, no temporary
    name is drawn, and nothing is listed for removal. *)
Theorem single_file_conversion_leaves_storage f up w :
  uploaded f = Some up ->
  lower (suffix (Path (upload_name up))) ≠ ".zip" ->
  let done_ := generate zip_members walk f w in
  disk done_.2 = disk w ∧ tmp_names done_.2 = tmp_names w
  ∧ cleanup_paths done_.2 = [].
Proof.
  intros Hup Hzip done_. subst done_.
  rewrite (generate_single_file_run f up w Hup Hzip). cbv zeta.
  match goal with
  | |- context [handler_render f ?h ?b ?w0] =>
    destruct (handler_render_only_calls f h b w0) as [l Hl];
    destruct (handler_render f h b w0) as [[pdf_bytes|e] wr]
  end; cbn [snd] in Hl; subst wr; cbn [fst snd];
    match goal with
    | |- context [shown ?evs ?w0] =>
      destruct (shown_frame evs w0) as (-> & -> & _ & ->)
    end; done.
Qed.

End SingleFile.

Lemma single_file_conversion_outcome_witness :
  (generate site_zip scan (sample_form page_upload) (sample_world quiet_engine)).1
  = Ok tt
  ∧ ui (generate site_zip scan (sample_form page_upload)
          (sample_world quiet_engine)).2
    = ui (sample_world quiet_engine)
      ++ [st_success; st_html_preview [60; 112; 62; 233];
          st_pdf_preview [Byte.x25; Byte.x50; Byte.x44; Byte.x46];
          st_download_button (download_name page_upload)
            [Byte.x25; Byte.x50; Byte.x44; Byte.x46]].
Proof.
  pose proof (single_file_conversion_outcome site_zip scan
                (sample_form page_upload) page_upload
                (sample_world quiet_engine)) as H.
  cbv zeta in H.
  change ((handler_render (sample_form page_upload)
             (default (Byte.to_N <$> upload_data page_upload)
                (Codec.utf8_decode Codec.strict (upload_data page_upload)))
             (or_none (strip (base_url_manual (sample_form page_upload))))
             (set_cleanup_paths [] (sample_world quiet_engine))).1)
    with (@Ok bytes [Byte.x25; Byte.x50; Byte.x44; Byte.x46]) in H.
  cbv iota in H.
  apply H; [reflexivity|]. vm_compute. discriminate.
Defined.

Lemma single_file_conversion_leaves_storage_witness :
  disk (generate site_zip scan (sample_form page_upload)
          (sample_world slow_engine)).2
  = disk (sample_world slow_engine).
Proof.
  destruct (single_file_conversion_leaves_storage site_zip scan
              (sample_form page_upload) page_upload (sample_world slow_engine))
    as (H & _).
  - reflexivity.
  - vm_compute. discriminate.
  - exact H.
Defined.

(** ** ZIP conversions, case by case *)

Lemma show_bind {A} e (k : unit -> M A) w : (show e ≫= k) w = k tt (log_ui e w).
Proof. reflexivity. Qed.

Lemma show_run e w : show e w = (Ok tt, log_ui e w).
Proof. reflexivity. Qed.

Lemma parent_child (dir : path) (c : string) : parent (dir ++ [c]) = dir.
Proof. unfold parent. apply removelast_last. Qed.

Lemma path_exists_true p w :
  is_Some (disk w !! p) -> path_exists p w = (Ok true, w).
Proof.
  intros Hp. unfold path_exists, stat, gets, mbind, M_bind, mret, M_ret.
  by rewrite bool_decide_eq_true_2.
Qed.

Lemma read_text_file entry w data decoded :
  disk w !! entry = Some (File data) ->
  Codec.utf8_decode Codec.ignore data = Some decoded ->
  read_text entry w = (Ok (Codec.universal_newlines decoded), w).
Proof.
  intros Hentry Hdec.
  unfold read_text, decode_utf8, stat, gets, mbind, M_bind, mret, M_ret.
  by rewrite Hentry, Hdec.
Qed.

Lemma read_text_dir entry w :
  disk w !! entry = Some Dir -> read_text entry w = (Raise (OSError entry), w).
Proof.
  intros Hentry.
  unfold read_text, stat, gets, mbind, M_bind, raise. by rewrite Hentry.
Qed.

Section ZipScenarios.

Variable zip_members : bytes -> option (list zip_member).
Variable walk : gmap path node -> path -> list path.

Hypothesis walk_spec : forall d root p,
  p ∈ walk d root <-> is_Some (d !! p) ∧ below root p.

Lemma find_after_extraction up w tmp_zip wa zf extract_dir w0 w1 :
  mkstemp "html2pdf_" ".zip" w = (Ok tmp_zip, wa) ->
  zip_members (upload_data up) = Some zf ->
  mkdtemp "html2pdf_zip_" (staged up tmp_zip wa) = (Ok extract_dir, w0) ->
  extractall zf extract_dir w0 = (Ok tt, w1) ->
  find_html_in_zip zip_members walk tmp_zip (staged up tmp_zip wa)
  = (Ok (if bool_decide (is_Some (disk w1 !! (extract_dir ++ ["index.html"])))
         then Some (extract_dir ++ ["index.html"])
         else first_page walk (disk w1) extract_dir), w1).
Proof.
  intros Hstage Hzf Htmp Hextract.
  apply (find_html_in_zip_run zip_members walk tmp_zip _ (upload_data up) zf
           extract_dir w0 w1); [|done..].
  simpl. apply lookup_insert_eq.
Qed.

Lemma resolve_zip_index_file_run up w tmp_zip wa zf extract_dir w0 w1 data decoded :
  mkstemp "html2pdf_" ".zip" w = (Ok tmp_zip, wa) ->
  storage_fault wa tmp_zip (upload_data up) = None ->
  zip_members (upload_data up) = Some zf ->
  mkdtemp "html2pdf_zip_" (staged up tmp_zip wa) = (Ok extract_dir, w0) ->
  extractall zf extract_dir w0 = (Ok tt, w1) ->
  disk w1 !! (extract_dir ++ ["index.html"]) = Some (File data) ->
  Codec.utf8_decode Codec.ignore data = Some decoded ->
  resolve_zip zip_members walk up w
  = (Ok (Codec.universal_newlines decoded, Some (as_uri extract_dir)), w1).
Proof.
  intros Hstage Hwrite Hzf Htmp Hextract Hidx Hdec.
  pose proof (find_after_extraction _ _ _ _ _ _ _ _ Hstage Hzf Htmp Hextract)
    as Hfind.
  rewrite bool_decide_eq_true_2 in Hfind by (rewrite Hidx; by eexists).
  rewrite (resolve_zip_run _ _ _ _ _ _ Hstage Hwrite), (bind_ok _ _ _ _ _ Hfind).
  rewrite (bind_ok _ _ _ _ _ (path_exists_true _ _ ltac:(by rewrite Hidx))).
  cbn [negb]. rewrite (bind_ok _ _ _ _ _ (read_text_file _ _ _ _ Hidx Hdec)).
  by rewrite parent_child.
Qed.

(** X17. When the copy of the upload is written and the extraction
    leaves a file index.html at its root, the ZIP branch yields the text
    of that file, decoded as UTF-8 with what does not decode dropped and
    line ends normalised, together with the file URI of the extraction
    directory as base URL. *)
Theorem resolve_zip_with_index_file up w tmp_zip wa zf extract_dir w0 w1 data :
  mkstemp "html2pdf_" ".zip" w = (Ok tmp_zip, wa) ->
  storage_fault wa tmp_zip (upload_data up) = None ->
  zip_members (upload_data up) = Some zf ->
  mkdtemp "html2pdf_zip_" (staged up tmp_zip wa) = (Ok extract_dir, w0) ->
  extractall zf extract_dir w0 = (Ok tt, w1) ->
  disk w1 !! (extract_dir ++ ["index.html"]) = Some (File data) ->
  exists decoded,
    Codec.utf8_decode Codec.ignore data = Some decoded
    ∧ resolve_zip zip_members walk up w
      = (Ok (Codec.universal_newlines decoded, Some (as_uri extract_dir)), w1).
Proof.
  intros Hstage Hwrite Hzf Htmp Hextract Hidx.
  destruct (utf8_decode_ignore_total data) as [decoded Hdec].
  exists decoded. split; [done|].
  by eapply resolve_zip_index_file_run.
Qed.

Section AtTheHandler.

Variables (f : form) (up : uploaded_file) (w : world).
Variables (tmp_zip : path) (wa : world) (zf : list zip_member).
Variables (extract_dir : path) (w0 w1 : world).

Hypothesis Hup : uploaded f = Some up.
Hypothesis Hzip : lower (suffix (Path (upload_name up))) = ".zip".
Hypothesis Hstage :
  mkstemp "html2pdf_" ".zip" (set_cleanup_paths [] w) = (Ok tmp_zip, wa).
Hypothesis Hwrite : storage_fault wa tmp_zip (upload_data up) = None.
Hypothesis Hzf : zip_members (upload_data up) = Some zf.
Hypothesis Htmp :
  mkdtemp "html2pdf_zip_" (staged up tmp_zip wa) = (Ok extract_dir, w0).
Hypothesis Hextract : extractall zf extract_dir w0 = (Ok tt, w1).

(** The three scenarios below are runs of the handler in which the copy
    of the upload is written, the archive is read and the extraction goes
    through. *)

(** X18. When the root index.html of the archive is a directory, it is
    selected all the same; reading it raises an OS error, which escapes
    the handler: nothing is shown, the browser is not called, and the
    temporary copy is removed. *)
Theorem index_directory_escapes :
  disk w1 !! (extract_dir ++ ["index.html"]) = Some Dir ->
  let done_ := generate zip_members walk f w in
  done_.1 = Raise (OSError (extract_dir ++ ["index.html"]))
  ∧ ui done_.2 = ui w ∧ calls done_.2 = calls w
  ∧ disk done_.2 !! tmp_zip = None.
Proof.
  intros Hidx done_. subst done_.
  destruct (extraction_facts _ _ _ _ _ _ _ _ Hstage Htmp Hextract)
    as (Hfile & Hdir & Hp & Hc & Hu).
  pose proof (find_after_extraction _ _ _ _ _ _ _ _ Hstage Hzf Htmp Hextract)
    as Hfind.
  rewrite bool_decide_eq_true_2 in Hfind by (rewrite Hidx; by eexists).
  assert (Hres : resolve_zip zip_members walk up (set_cleanup_paths [] w)
                 = (Raise (OSError (extract_dir ++ ["index.html"])), w1)).
  { rewrite (resolve_zip_run _ _ _ _ _ _ Hstage Hwrite), (bind_ok _ _ _ _ _ Hfind).
    rewrite (bind_ok _ _ _ _ _ (path_exists_true _ _ ltac:(by rewrite Hidx))).
    cbn [negb]. by rewrite (bind_raise _ _ _ _ _ (read_text_dir _ _ Hidx)). }
  rewrite (generate_zip_raise zip_members walk f up w _ w1 tmp_zip
             (upload_data up) Hup Hzip Hres); [|done..].
  simpl. split_and!; [done..|]. apply lookup_delete_eq.
Qed.

(** X19. When the extraction leaves no index.html at its root and no
    entry whose name ends in ".html" or ".htm" below it, the handler shows
    the no-HTML-found error and stops: that message is all the user sees,
    the browser is not called, and the temporary copy is removed. *)
Theorem no_entry_point_stops_the_handler :
  disk w1 !! (extract_dir ++ ["index.html"]) = None ->
  (¬ exists p, html_like (disk w1) extract_dir p) ->
  let done_ := generate zip_members walk f w in
  done_.1 = Raise StopException
  ∧ ui done_.2 = ui w ++ [st_error no_entry_msg]
  ∧ calls done_.2 = calls w
  ∧ disk done_.2 !! tmp_zip = None.
Proof.
  intros Hidx Hnone done_. subst done_.
  destruct (extraction_facts _ _ _ _ _ _ _ _ Hstage Htmp Hextract)
    as (Hfile & Hdir & Hp & Hc & Hu).
  pose proof (find_after_extraction _ _ _ _ _ _ _ _ Hstage Hzf Htmp Hextract)
    as Hfind.
  rewrite bool_decide_eq_false_2 in Hfind by (rewrite Hidx; by intros [? ?]).
  apply (first_page_none walk walk_spec) in Hnone. rewrite Hnone in Hfind.
  assert (Hres : resolve_zip zip_members walk up (set_cleanup_paths [] w)
                 = (Raise StopException, log_ui (st_error no_entry_msg) w1)).
  { by rewrite (resolve_zip_run _ _ _ _ _ _ Hstage Hwrite), (bind_ok _ _ _ _ _ Hfind). }
  rewrite (generate_zip_raise zip_members walk f up w _ _ tmp_zip
             (upload_data up) Hup Hzip Hres); [|done..].
  simpl. rewrite Hu, Hc. split_and!; [done..|]. apply lookup_delete_eq.
Qed.

(** X20. When the extraction leaves a file index.html at its root and the
    render returns a document, the handler ends normally: the user sees
    the success note, the remark that ZIP uploads have no HTML preview,
    the preview of the document and the download button for it; the
    temporary copy is removed, the extracted tree stays. *)
Theorem zip_conversion_success data decoded pdf_bytes wr :
  disk w1 !! (extract_dir ++ ["index.html"]) = Some (File data) ->
  Codec.utf8_decode Codec.ignore data = Some decoded ->
  handler_render f (Codec.universal_newlines decoded)
    (Some (as_uri extract_dir)) w1 = (Ok pdf_bytes, wr) ->
  let done_ := generate zip_members walk f w in
  done_.1 = Ok tt
  ∧ ui done_.2 = ui w ++ [st_success; st_info; st_pdf_preview pdf_bytes;
                          st_download_button (download_name up) pdf_bytes]
  ∧ disk done_.2 !! tmp_zip = None
  ∧ disk done_.2 !! extract_dir = Some Dir
  ∧ disk done_.2 !! (extract_dir ++ ["index.html"]) = Some (File data).
Proof.
  intros Hidx Hdec Hrender done_. subst done_.
  destruct (extraction_facts _ _ _ _ _ _ _ _ Hstage Htmp Hextract)
    as (Hfile & Hdir & Hp & Hc & Hu).
  destruct (staging_facts _ _ _ _ _ _ Hstage Htmp)
    as (_ & _ & _ & _ & _ & Hout).
  pose proof (resolve_zip_index_file_run _ _ _ _ _ _ _ _ _ _
                Hstage Hwrite Hzf Htmp Hextract Hidx Hdec) as Hres.
  pose proof (handler_render_only_calls f (Codec.universal_newlines decoded)
                (Some (as_uri extract_dir)) w1) as [l Hl].
  rewrite Hrender in Hl. cbn [snd] in Hl. subst wr.
  unfold generate. rewrite Hup, Hzip.
  destruct (decide (".zip" = ".zip")) as [_|Hne]; [|done].
  change ((modify (set_cleanup_paths []) ;; ?m) w)
    with (m (set_cleanup_paths [] w)).
  unfold try_finally. rewrite (bind_ok _ _ _ _ _ Hres).
  unfold handler_render in Hrender.
  destruct (normalize_paper _ _ _) as [[format_name width] height].
  match goal with
  | |- context [(try_except ?body ?handler ≫= ?k) w1] =>
    assert (Htry : try_except body handler w1
                   = (Ok pdf_bytes, add_calls l w1))
      by (unfold try_except; by rewrite Hrender);
    rewrite (bind_ok _ _ _ _ _ Htry)
  end.
  rewrite !show_bind, show_run.
  fold (download_name up).
  rewrite (cleanup_one_file _ tmp_zip (upload_data up)); [|done..].
  simpl. rewrite Hu.
  split_and!; [done | by rewrite <- !(assoc_L (++)) | apply lookup_delete_eq | |].
  - rewrite lookup_delete_ne; [done|].
    intros ->. apply (Hout []). by rewrite (right_id_L [] (++)).
  - rewrite lookup_delete_ne; [done|]. apply Hout.
Qed.

End AtTheHandler.

End ZipScenarios.

Lemma resolve_zip_with_index_file_witness :
  exists decoded,
    Codec.utf8_decode Codec.ignore [Byte.x3c; Byte.x68; Byte.x31; Byte.x3e]
    = Some decoded
    ∧ resolve_zip site_zip scan sample_upload (sample_world quiet_engine)
      = (Ok (Codec.universal_newlines decoded, Some (as_uri sample_extract_dir)),
         extracted_world site_members).
Proof.
  apply (resolve_zip_with_index_file site_zip scan sample_upload
           (sample_world quiet_engine) sample_tmp_zip uploaded_world
           site_members sample_extract_dir tmpdir_world
           (extracted_world site_members)).
  - vm_compute. reflexivity.
  - reflexivity.
  - reflexivity.
  - vm_compute. reflexivity.
  - vm_compute. reflexivity.
  - vm_compute. reflexivity.
Defined.

Lemma index_directory_escapes_witness :
  (generate dir_index_zip scan (sample_form sample_upload)
     (sample_world quiet_engine)).1
  = Raise (OSError (sample_extract_dir ++ ["index.html"])).
Proof.
  destruct (index_directory_escapes dir_index_zip scan
              (sample_form sample_upload) sample_upload
              (sample_world quiet_engine) sample_tmp_zip
              started_uploaded_world dir_index_members sample_extract_dir
              started_tmpdir_world (started_extracted_world dir_index_members))
    as (H & _).
  - reflexivity.
  - vm_compute. reflexivity.
  - vm_compute. reflexivity.
  - reflexivity.
  - reflexivity.
  - vm_compute. reflexivity.
  - vm_compute. reflexivity.
  - vm_compute. reflexivity.
  - exact H.
Defined.

Lemma no_entry_point_stops_the_handler_witness :
  (generate assets_zip scan (sample_form sample_upload)
     (sample_world quiet_engine)).1 = Raise StopException
  ∧ ui (generate assets_zip scan (sample_form sample_upload)
          (sample_world quiet_engine)).2
    = ui (sample_world quiet_engine) ++ [st_error no_entry_msg].
Proof.
  destruct (no_entry_point_stops_the_handler assets_zip scan scan_spec
              (sample_form sample_upload) sample_upload
              (sample_world quiet_engine) sample_tmp_zip
              started_uploaded_world assets_members sample_extract_dir
              started_tmpdir_world (started_extracted_world assets_members))
    as (H1 & H2 & _).
  - reflexivity.
  - vm_compute. reflexivity.
  - vm_compute. reflexivity.
  - reflexivity.
  - reflexivity.
  - vm_compute. reflexivity.
  - vm_compute. reflexivity.
  - vm_compute. reflexivity.
  - intros (p & Hthere & Hbelow & Hname).
    assert (Hp : p ∈ scan (disk (started_extracted_world assets_members))
                          sample_extract_dir)
      by (by apply scan_spec).
    assert (Hscan : scan (disk (started_extracted_world assets_members))
                         sample_extract_dir
                    = [sample_extract_dir ++ ["style.css"]])
      by (vm_compute; reflexivity).
    rewrite Hscan in Hp. apply list_elem_of_singleton in Hp. subst p.
    destruct Hname as [Hname|Hname]; vm_compute in Hname; discriminate Hname.
  - by split.
Defined.

Lemma zip_conversion_success_witness :
  (generate site_zip scan (sample_form sample_upload)
     (sample_world quiet_engine)).1 = Ok tt
  ∧ ui (generate site_zip scan (sample_form sample_upload)
          (sample_world quiet_engine)).2
    = ui (sample_world quiet_engine)
      ++ [st_success; st_info;
          st_pdf_preview [Byte.x25; Byte.x50; Byte.x44; Byte.x46];
          st_download_button (download_name sample_upload)
            [Byte.x25; Byte.x50; Byte.x44; Byte.x46]].
Proof.
  destruct (zip_conversion_success site_zip scan
              (sample_form sample_upload) sample_upload
              (sample_world quiet_engine) sample_tmp_zip
              started_uploaded_world site_members sample_extract_dir
              started_tmpdir_world (started_extracted_world site_members))
    with (data := [Byte.x3c; Byte.x68; Byte.x31; Byte.x3e])
         (decoded := [60; 104; 49; 62] : text)
         (pdf_bytes := [Byte.x25; Byte.x50; Byte.x44; Byte.x46])
         (wr := (handler_render (sample_form sample_upload)
                   (Codec.universal_newlines [60; 104; 49; 62])
                   (Some (as_uri sample_extract_dir))
                   (started_extracted_world site_members)).2)
    as (H1 & H2 & _).
  - reflexivity.
  - vm_compute. reflexivity.
  - vm_compute. reflexivity.
  - reflexivity.
  - reflexivity.
  - vm_compute. reflexivity.
  - vm_compute. reflexivity.
  - vm_compute. reflexivity.
  - reflexivity.
  - vm_compute. reflexivity.
  - by split.
Defined.

(** ** playwright-install.py *)

(** X21. The install script ends normally whenever the playwright
    package can be imported, whatever becomes of the install command: a
    failing command is reported on standard output and swallowed. It
    raises only when the import itself fails, and then it has run nothing
    and printed nothing. The command it runs, once, is
    playwright install chromium. *)
Theorem install_script_outcome (h : PlaywrightInstall.host) :
  let done_ := PlaywrightInstall.main h in
  (done_.1 = None <-> PlaywrightInstall.playwright_importable h = true)
  ∧ (PlaywrightInstall.playwright_importable h = false ->
     done_.1 = Some PlaywrightInstall.ImportError
     ∧ PlaywrightInstall.commands done_.2 = []
     ∧ PlaywrightInstall.stdout done_.2 = [])
  ∧ (PlaywrightInstall.playwright_importable h = true ->
     PlaywrightInstall.commands done_.2 = [["playwright"; "install"; "chromium"]]
     ∧ PlaywrightInstall.stdout done_.2
       = match PlaywrightInstall.run h ["playwright"; "install"; "chromium"] with
         | None => []
         | Some e => [("Error installing Playwright Chromium:", e)]
         end).
Proof.
  unfold PlaywrightInstall.main, PlaywrightInstall.install_command.
  destruct (PlaywrightInstall.playwright_importable h); simpl.
  - destruct (PlaywrightInstall.run h _) as [e|]; simpl;
      (split_and!; [done | done | by intros _]).
  - split_and!; [by split | by intros _ | done].
Qed.

Lemma install_script_outcome_witness :
  (PlaywrightInstall.main failing_host).1 = None
  ∧ PlaywrightInstall.stdout (PlaywrightInstall.main failing_host).2
    = [("Error installing Playwright Chromium:",
        PlaywrightInstall.CalledProcessError 1)].
Proof.
  destruct (install_script_outcome failing_host) as (H1 & _ & H3).
  split; [by apply H1 | by apply H3].
Defined.
